(** * health-demo: the Markdown section parser and the metadata check

    A shallow embedding of [parseSections] (the module [utils/parser]
    that [App.tsx] and [components/UI.tsx] import), of the metadata
    check of [SectionCard] and of [extractMetadataJson]
    ([components/UI.tsx]) and of the required-section checklist of
    [App.tsx], together with the ECMAScript string and JSON primitives
    they call.  The list [REQUIRED_SECTIONS] of [constants] is a
    parameter of the checklist.

    ECMAScript strings are sequences of UTF-16 code units; they are
    modelled as lists of code units, each a binary natural number. *)

From Stdlib Require Import Ascii String DecimalString DecimalNat.
From Stdlib Require Import List NArith ZArith Bool Lia.
Import ListNotations.

(** ** ECMAScript strings *)

Definition jsstring := list N.

(** Source-level literals.  A Rocq string is read as an ECMAScript string
    literal: [\n], [\r] and [\t] are the usual escapes, [\\] is a
    backslash and [\'] stands for the double quote character. *)
Fixpoint lit (s : string) : jsstring :=
  match s with
  | EmptyString => []
  | String c s' =>
      if Ascii.eqb c "\"%char then
        match s' with
        | String e s'' =>
            (if Ascii.eqb e "n"%char then 10%N
             else if Ascii.eqb e "r"%char then 13%N
             else if Ascii.eqb e "t"%char then 9%N
             else if Ascii.eqb e "'"%char then 34%N
             else N_of_ascii e) :: lit s''
        | EmptyString => [N_of_ascii c]
        end
      else N_of_ascii c :: lit s'
  end.
Arguments lit _%_string.

Fixpoint str_eqb (a b : jsstring) : bool :=
  match a, b with
  | [], [] => true
  | x :: a', y :: b' => N.eqb x y && str_eqb a' b'
  | _, _ => false
  end.

(** ToBoolean on a string: only the empty string is falsy. *)
Definition truthy (s : jsstring) : bool :=
  match s with [] => false | _ :: _ => true end.

(** WhiteSpace and LineTerminator code units: what [String.prototype.trim]
    removes and what the regular expression class [\s] matches. *)
Definition isWhiteSpace (c : N) : bool :=
  ((9 <=? c) && (c <=? 13) || (c =? 32) || (c =? 160) || (c =? 5760)
   || (8192 <=? c) && (c <=? 8202) || (c =? 8232) || (c =? 8233)
   || (c =? 8239) || (c =? 8287) || (c =? 12288) || (c =? 65279))%N.

Definition isDigit (c : N) : bool := ((48 <=? c) && (c <=? 57))%N.

Fixpoint trimStart (s : jsstring) : jsstring :=
  match s with
  | [] => []
  | c :: r => if isWhiteSpace c then trimStart r else s
  end.

Definition trimEnd (s : jsstring) : jsstring := rev (trimStart (rev s)).

Definition trim (s : jsstring) : jsstring := trimEnd (trimStart s).

Fixpoint startsWith (s pat : jsstring) {struct pat} : bool :=
  match pat, s with
  | [], _ => true
  | p :: pat', c :: s' => N.eqb c p && startsWith s' pat'
  | _ :: _, [] => false
  end.

(** [s.indexOf(pat)]: the first position at which [pat] occurs, or -1. *)
Fixpoint indexOf (s pat : jsstring) : Z :=
  if startsWith s pat then 0%Z
  else match s with
       | [] => (-1)%Z
       | _ :: r => let i := indexOf r pat in
                   if (i <? 0)%Z then (-1)%Z else (i + 1)%Z
       end.

(** [s.lastIndexOf(pat)]: the last position at which [pat] occurs, or -1. *)
Fixpoint lastIndexOf (s pat : jsstring) : Z :=
  match s with
  | [] => if startsWith s pat then 0%Z else (-1)%Z
  | _ :: r => let i := lastIndexOf r pat in
              if (0 <=? i)%Z then (i + 1)%Z
              else if startsWith s pat then 0%Z else (-1)%Z
  end.

Definition clamp (len i : Z) : Z := Z.min (Z.max i 0) len.

(** [s.substring(a, b)]: both ends clamped to the string, swapped when
    they come in the wrong order. *)
Definition substring (s : jsstring) (a b : Z) : jsstring :=
  let len := Z.of_nat (length s) in
  let a' := clamp len a in
  let b' := clamp len b in
  let from := Z.min a' b' in
  let to := Z.max a' b' in
  firstn (Z.to_nat (to - from)) (skipn (Z.to_nat from) s).

(** [s.substring(a)]: the end defaults to the length. *)
Definition substringFrom (s : jsstring) (a : Z) : jsstring :=
  substring s a (Z.of_nat (length s)).

(** [s.slice(a, b)]: negative indices count from the end; an empty
    result when the ends cross. *)
Definition slice (s : jsstring) (a b : Z) : jsstring :=
  let len := Z.of_nat (length s) in
  let rel i := if (i <? 0)%Z then Z.max (len + i) 0 else Z.min i len in
  let from := rel a in
  let to := rel b in
  firstn (Z.to_nat (Z.max (to - from) 0)) (skipn (Z.to_nat from) s).

(** [s.replace(re, by)] for a global regular expression [re] given by
    its matcher: [matchAt r] is the length of the match of [re] that
    starts at the head of [r], if there is one.  Matching resumes after
    each match; an empty match is replaced and the scan moves on by one
    code unit. *)
Fixpoint replaceAll_from (matchAt : jsstring -> option nat) (by_ : jsstring)
    (skip : nat) (s : jsstring) : jsstring :=
  match s with
  | [] => match skip, matchAt [] with
          | O, Some _ => by_
          | _, _ => []
          end
  | c :: r =>
      match skip with
      | S k => replaceAll_from matchAt by_ k r
      | O => match matchAt s with
             | Some (S k) => by_ ++ replaceAll_from matchAt by_ k r
             | Some O => by_ ++ c :: replaceAll_from matchAt by_ O r
             | None => c :: replaceAll_from matchAt by_ O r
             end
      end
  end.

Definition replaceAll (matchAt : jsstring -> option nat) (by_ s : jsstring)
  : jsstring :=
  replaceAll_from matchAt by_ O s.

(** Number::toString on a non-negative integer: its decimal digits. *)
Definition natToString (n : nat) : jsstring :=
  map N_of_ascii (list_ascii_of_string (NilZero.string_of_uint (Nat.to_uint n))).

(** ** [utils/parser]: [parseSections] *)

Record section := { title : jsstring; content : jsstring }.

(** The regular expression [/\r\n?/]. *)
Definition re_crlf (s : jsstring) : option nat :=
  match s with
  | c :: r =>
      if (c =? 13)%N then
        match r with
        | d :: _ => if (d =? 10)%N then Some 2 else Some 1
        | [] => Some 1
        end
      else None
  | [] => None
  end.

(** The regular expression [/\n(?=###\s)/]: a line feed, provided three
    hashes and a white space code unit follow; the lookahead is not part
    of the match. *)
Definition re_headingBreak (s : jsstring) : bool :=
  match s with
  | c :: h1 :: h2 :: h3 :: w :: _ =>
      (c =? 10)%N && (h1 =? 35)%N && (h2 =? 35)%N && (h3 =? 35)%N
      && isWhiteSpace w
  | _ => false
  end.

(** [text.split(/\n(?=###\s)/g)]: the pieces between the matches, the
    matched line feed belonging to neither side. *)
Fixpoint split_headingBreak (s : jsstring) : list jsstring :=
  match s with
  | [] => [[]]
  | c :: r =>
      if re_headingBreak s then [] :: split_headingBreak r
      else match split_headingBreak r with
           | chunk :: chunks => (c :: chunk) :: chunks
           | [] => [[c]]
           end
  end.

(** [parts.forEach((chunk, idx) => ...)], the callback threading the
    array it pushes to. *)
Fixpoint forEach {A St : Type} (body : St -> A -> nat -> St) (l : list A)
    (idx : nat) (st : St) : St :=
  match l with
  | [] => st
  | x :: l' => forEach body l' (S idx) (body st x idx)
  end.

Definition chunkTitle (chunk : jsstring) : jsstring :=
  let nl := indexOf chunk (lit "\n") in
  trim (substring chunk 4
          (if (nl >? -1)%Z then nl else Z.of_nat (length chunk))).

Definition chunkContent (chunk : jsstring) : jsstring :=
  let nl := indexOf chunk (lit "\n") in
  if (nl >? -1)%Z then trim (substringFrom chunk (nl + 1)) else [].

Definition pushChunk (sections : list section) (chunk : jsstring)
    (idx : nat) : list section :=
  if startsWith chunk (lit "### ") then
    let title := chunkTitle chunk in
    let content := chunkContent chunk in
    sections ++
      [{| title := if truthy title then title
                   else lit "Section " ++ natToString (idx + 1);
          content := content |}]
  else if truthy (trim chunk) then
    sections ++ [{| title := lit "Overview"; content := trim chunk |}]
  else sections.

Definition parseSections (result : jsstring) : list section :=
  if negb (truthy (trim result)) then []
  else
    let text := replaceAll re_crlf (lit "\n") result in
    let parts := split_headingBreak text in
    let sections := forEach pushChunk parts 0 [] in
    filter (fun s => truthy (title s) || truthy (content s)) sections.

(** [chunks.join("\n")]: used to state what the split keeps. *)
Fixpoint join (chunks : list jsstring) : jsstring :=
  match chunks with
  | [] => []
  | [chunk] => chunk
  | chunk :: rest => chunk ++ 10%N :: join rest
  end.

(** A string is trimmed when neither end is white space. *)
Definition trimmed (s : jsstring) : Prop :=
  trimStart s = s /\ trimStart (rev s) = rev s.

(** The chunks the loop drops ahead of the headings: a blank first
    chunk, when there is one. *)
Definition droppedBefore (parts : list jsstring) : nat :=
  match parts with
  | chunk :: _ => if truthy (trim chunk) then 0 else 1
  | [] => 0
  end.

Definition startsWithHashes (chunk : jsstring) : Prop :=
  exists r, chunk = 35%N :: 35%N :: 35%N :: r.

(** ** JSON values and [JSON.parse]

    A number is kept as the numeral it was written with: the code under
    study never inspects a number, it only hands it back to the engine
    for printing.  The members of an object are its own properties, in
    creation order and with distinct keys. *)

#[local] Set Warnings "-register-all".

Inductive json : Type :=
| JNull
| JBool (b : bool)
| JNumber (numeral : jsstring)
| JString (s : jsstring)
| JArray (elements : list json)
| JObject (members : list (jsstring * json)).

Inductive token : Type :=
| TLBrace | TRBrace | TLBracket | TRBracket | TColon | TComma
| TString (s : jsstring)
| TScalar (v : json).

Definition isJsonSpace (c : N) : bool :=
  ((c =? 9) || (c =? 10) || (c =? 13) || (c =? 32))%N.

Definition hexValue (c : N) : option N :=
  if isDigit c then Some (c - 48)%N
  else if ((97 <=? c) && (c <=? 102))%N then Some (c - 87)%N
  else if ((65 <=? c) && (c <=? 70))%N then Some (c - 55)%N
  else None.

Definition hex4 (h1 h2 h3 h4 : N) : option N :=
  match hexValue h1, hexValue h2, hexValue h3, hexValue h4 with
  | Some a, Some b, Some c, Some d => Some (((a * 16 + b) * 16 + c) * 16 + d)%N
  | _, _, _, _ => None
  end.

(** The character an escape letter stands for. *)
Definition unescape (e : N) : option N :=
  if (e =? 34)%N then Some 34%N
  else if (e =? 92)%N then Some 92%N
  else if (e =? 47)%N then Some 47%N
  else if (e =? 98)%N then Some 8%N
  else if (e =? 102)%N then Some 12%N
  else if (e =? 110)%N then Some 10%N
  else if (e =? 114)%N then Some 13%N
  else if (e =? 116)%N then Some 9%N
  else None.

Definition lexed (c : N) (n : nat) (rest : option (jsstring * nat))
  : option (jsstring * nat) :=
  match rest with
  | Some (str, k) => Some (c :: str, n + k)
  | None => None
  end.

(** The string that starts after an opening quote: its value and the
    number of code units read, the closing quote included. *)
Fixpoint lex_string (s : jsstring) : option (jsstring * nat) :=
  match s with
  | [] => None
  | c :: r =>
      if (c =? 34)%N then Some ([], 1)
      else if (c =? 92)%N then
        match r with
        | e :: r' =>
            if (e =? 117)%N then
              match r' with
              | h1 :: h2 :: h3 :: h4 :: r'' =>
                  match hex4 h1 h2 h3 h4 with
                  | Some u => lexed u 6 (lex_string r'')
                  | None => None
                  end
              | _ => None
              end
            else
              match unescape e with
              | Some u => lexed u 2 (lex_string r')
              | None => None
              end
        | [] => None
        end
      else if (c <? 32)%N then None
      else lexed c 1 (lex_string r)
  end.

Fixpoint digitRun (s : jsstring) : nat :=
  match s with
  | c :: r => if isDigit c then S (digitRun r) else 0
  | [] => 0
  end.

Definition lex_fraction (s : jsstring) : option nat :=
  match s with
  | c :: r =>
      if (c =? 46)%N then
        match digitRun r with
        | O => None
        | S d => Some (2 + d)
        end
      else Some 0
  | [] => Some 0
  end.

Definition lex_exponent (s : jsstring) : option nat :=
  match s with
  | c :: r =>
      if ((c =? 101) || (c =? 69))%N then
        let sign := match r with
                    | x :: _ => if ((x =? 43) || (x =? 45))%N then 1 else 0
                    | [] => 0
                    end in
        match digitRun (skipn sign r) with
        | O => None
        | S d => Some (2 + sign + d)
        end
      else Some 0
  | [] => Some 0
  end.

(** The length of the numeral at the head of [s]. *)
Definition lex_number (s : jsstring) : option nat :=
  let sign := match s with
              | c :: _ => if (c =? 45)%N then 1 else 0
              | [] => 0
              end in
  match skipn sign s with
  | c :: r =>
      let int := if (c =? 48)%N then Some 1
                 else if isDigit c then Some (S (digitRun r))
                 else None in
      match int with
      | Some i =>
          match lex_fraction (skipn i (c :: r)) with
          | Some f =>
              match lex_exponent (skipn (i + f) (c :: r)) with
              | Some e => Some (sign + i + f + e)
              | None => None
              end
          | None => None
          end
      | None => None
      end
  | [] => None
  end.

(** The token at the head of [s], which is not white space, and its
    length. *)
Definition lex_token (s : jsstring) : option (token * nat) :=
  match s with
  | [] => None
  | c :: r =>
      if (c =? 123)%N then Some (TLBrace, 1)
      else if (c =? 125)%N then Some (TRBrace, 1)
      else if (c =? 91)%N then Some (TLBracket, 1)
      else if (c =? 93)%N then Some (TRBracket, 1)
      else if (c =? 58)%N then Some (TColon, 1)
      else if (c =? 44)%N then Some (TComma, 1)
      else if (c =? 34)%N then
        match lex_string r with
        | Some (str, n) => Some (TString str, S n)
        | None => None
        end
      else if startsWith s (lit "true") then Some (TScalar (JBool true), 4)
      else if startsWith s (lit "false") then Some (TScalar (JBool false), 5)
      else if startsWith s (lit "null") then Some (TScalar JNull, 4)
      else
        match lex_number s with
        | Some n => Some (TScalar (JNumber (firstn n s)), n)
        | None => None
        end
  end.

(** The tokens of a text; [skip] counts the code units left of the
    token being read. *)
Fixpoint tokenize_from (skip : nat) (s : jsstring) : option (list token) :=
  match s with
  | [] => Some []
  | c :: r =>
      match skip with
      | S k => tokenize_from k r
      | O =>
          if isJsonSpace c then tokenize_from O r
          else
            match lex_token s with
            | Some (t, n) =>
                match tokenize_from (pred n) r with
                | Some ts => Some (t :: ts)
                | None => None
                end
            | None => None
            end
      end
  end.

Definition tokenize (s : jsstring) : option (list token) := tokenize_from O s.

(** CreateDataProperty: a repeated key keeps its place and takes the new
    value. *)
Fixpoint obj_set (members : list (jsstring * json)) (k : jsstring) (v : json)
  : list (jsstring * json) :=
  match members with
  | [] => [(k, v)]
  | (k', v') :: rest =>
      if str_eqb k' k then (k', v) :: rest else (k', v') :: obj_set rest k v
  end.

(** The containers that wait for the value being read. *)
Inductive frame : Type :=
| FArray (done : list json)
| FObject (done : list (jsstring * json)) (key : jsstring).

Inductive pstate : Type :=
| SValue (stack : list frame)
| SArrayOpen (stack : list frame)
| SArrayNext (done : list json) (stack : list frame)
| SObjectOpen (stack : list frame)
| SObjectKey (done : list (jsstring * json)) (stack : list frame)
| SObjectColon (done : list (jsstring * json)) (key : jsstring)
    (stack : list frame)
| SObjectNext (done : list (jsstring * json)) (stack : list frame)
| SDone (v : json).

(** A value is complete: it goes to the container that waits for it. *)
Definition complete (v : json) (stack : list frame) : pstate :=
  match stack with
  | [] => SDone v
  | FArray done :: stack' => SArrayNext (v :: done) stack'
  | FObject done key :: stack' => SObjectNext (obj_set done key v) stack'
  end.

Definition startValue (t : token) (stack : list frame) : option pstate :=
  match t with
  | TLBrace => Some (SObjectOpen stack)
  | TLBracket => Some (SArrayOpen stack)
  | TString s => Some (complete (JString s) stack)
  | TScalar v => Some (complete v stack)
  | _ => None
  end.

Definition pstep (st : pstate) (t : token) : option pstate :=
  match st with
  | SValue stack => startValue t stack
  | SArrayOpen stack =>
      match t with
      | TRBracket => Some (complete (JArray []) stack)
      | _ => startValue t (FArray [] :: stack)
      end
  | SArrayNext done stack =>
      match t with
      | TComma => Some (SValue (FArray done :: stack))
      | TRBracket => Some (complete (JArray (rev done)) stack)
      | _ => None
      end
  | SObjectOpen stack =>
      match t with
      | TString k => Some (SObjectColon [] k stack)
      | TRBrace => Some (complete (JObject []) stack)
      | _ => None
      end
  | SObjectKey done stack =>
      match t with
      | TString k => Some (SObjectColon done k stack)
      | _ => None
      end
  | SObjectColon done key stack =>
      match t with
      | TColon => Some (SValue (FObject done key :: stack))
      | _ => None
      end
  | SObjectNext done stack =>
      match t with
      | TComma => Some (SObjectKey done stack)
      | TRBrace => Some (complete (JObject done) stack)
      | _ => None
      end
  | SDone _ => None
  end.

Fixpoint prun (st : pstate) (ts : list token) : option json :=
  match ts with
  | [] => match st with SDone v => Some v | _ => None end
  | t :: ts' =>
      match pstep st t with
      | Some st' => prun st' ts'
      | None => None
      end
  end.

(** [JSON.parse(text)]: the value, or [None] when a SyntaxError is
    thrown. *)
Definition JSON_parse (text : jsstring) : option json :=
  match tokenize text with
  | Some ts => prun (SValue []) ts
  | None => None
  end.

(** ** What the engine decides

    The parts of the ECMAScript engine that the language leaves to a
    table or to the implementation: the Unicode lower-case mapping, of
    which only the Basic Latin part is fixed here; the messages of the
    errors the engine itself throws; the printing of numbers. *)

Definition isBasicLatin (c : N) : bool := (c <? 128)%N.

Definition lowerBasicLatin (c : N) : N :=
  if ((65 <=? c) && (c <=? 90))%N then (c + 32)%N else c.

Class Engine : Type := {
  (** [String.prototype.toLowerCase] *)
  toLowerCase : jsstring -> jsstring;
  toLowerCase_basicLatin :
    forall s, forallb isBasicLatin s = true ->
              toLowerCase s = map lowerBasicLatin s;
  (** the message of the SyntaxError that [JSON.parse] throws on a text *)
  syntaxErrorMessage : jsstring -> jsstring;
  (** the message of the TypeError that [key in value] throws when the
      value is not an object *)
  typeErrorMessage : jsstring -> json -> jsstring;
  (** what [JSON.stringify] prints for the number a numeral denotes *)
  numberToJSON : jsstring -> jsstring
}.

(** An engine to run examples with: it folds Basic Latin letters only,
    reports fixed messages and prints numerals as they were written. *)
#[refine] Instance sampleEngine : Engine := {
  toLowerCase := map lowerBasicLatin;
  syntaxErrorMessage := fun _ => lit "Unexpected token in JSON";
  typeErrorMessage := fun _ _ => lit "Cannot use 'in' operator";
  numberToJSON := fun numeral => numeral
}.
Proof. reflexivity. Defined.

(** ** [JSON.stringify(value, null, 2)] *)

Definition hexDigit (n : N) : N :=
  if (n <? 10)%N then (48 + n)%N else (87 + n)%N.

(** [\uXXXX], in lower-case hexadecimal digits. *)
Definition unicodeEscape (c : N) : jsstring :=
  [92; 117; hexDigit ((c / 4096) mod 16); hexDigit ((c / 256) mod 16);
   hexDigit ((c / 16) mod 16); hexDigit (c mod 16)]%N.

Definition isLeadSurrogate (c : N) : bool := ((55296 <=? c) && (c <=? 56319))%N.
Definition isTrailSurrogate (c : N) : bool := ((56320 <=? c) && (c <=? 57343))%N.

Definition quoteUnit (c : N) : jsstring :=
  if (c =? 8)%N then lit "\\b"
  else if (c =? 9)%N then lit "\\t"
  else if (c =? 10)%N then lit "\\n"
  else if (c =? 12)%N then lit "\\f"
  else if (c =? 13)%N then lit "\\r"
  else if (c =? 34)%N then lit "\\\'"
  else if (c =? 92)%N then lit "\\\\"
  else if (c <? 32)%N || isLeadSurrogate c || isTrailSurrogate c
       then unicodeEscape c
  else [c].

(** The body of QuoteJSONString: a surrogate pair is kept, a lone
    surrogate is escaped. *)
Fixpoint quoteBody (s : jsstring) : jsstring :=
  match s with
  | [] => []
  | c :: r =>
      match r with
      | d :: r' =>
          if isLeadSurrogate c && isTrailSurrogate d
          then c :: d :: quoteBody r'
          else quoteUnit c ++ quoteBody r
      | [] => quoteUnit c
      end
  end.

Definition quoteJSON (s : jsstring) : jsstring :=
  34%N :: quoteBody s ++ [34%N].

(** The value of a key that is an array index: a canonical decimal
    numeral below 2^32 - 1. *)
Definition arrayIndex (k : jsstring) : option N :=
  match k with
  | [] => None
  | c :: r =>
      if forallb isDigit k && ((negb (c =? 48)%N) || (length r =? 0))
      then
        let n := fold_left (fun acc d => (acc * 10 + (d - 48))%N) k 0%N in
        if (length k <=? 10) && (n <? 4294967295)%N then Some n else None
      else None
  end.

Fixpoint insertIndexed {A} (n : N) (x : A) (l : list (N * A)) : list (N * A) :=
  match l with
  | [] => [(n, x)]
  | (m, y) :: l' =>
      if (n <? m)%N then (n, x) :: l else (m, y) :: insertIndexed n x l'
  end.

(** OrdinaryOwnPropertyKeys: array indices in ascending order, then the
    other keys in creation order. *)
Definition propertyOrder {A} (members : list (jsstring * A))
  : list (jsstring * A) :=
  let indexed :=
    fold_left (fun acc kv =>
                 match arrayIndex (fst kv) with
                 | Some n => insertIndexed n kv acc
                 | None => acc
                 end) members [] in
  map snd indexed
  ++ filter (fun kv => match arrayIndex (fst kv) with
                       | Some _ => false
                       | None => true
                       end) members.

Fixpoint joinWith (sep : jsstring) (parts : list jsstring) : jsstring :=
  match parts with
  | [] => []
  | [part] => part
  | part :: rest => part ++ sep ++ joinWith sep rest
  end.

Definition bracketed (open close indent : jsstring) (parts : list jsstring)
  : jsstring :=
  match parts with
  | [] => open ++ close
  | _ =>
      let inner := indent ++ lit "  " in
      open ++ lit "\n" ++ inner
      ++ joinWith (lit ",\n" ++ inner) parts
      ++ lit "\n" ++ indent ++ close
  end.

(** SerializeJSONProperty with a gap of two spaces. *)
Fixpoint serialize {E : Engine} (indent : jsstring) (v : json) : jsstring :=
  match v with
  | JNull => lit "null"
  | JBool true => lit "true"
  | JBool false => lit "false"
  | JNumber numeral => numberToJSON numeral
  | JString s => quoteJSON s
  | JArray elements =>
      bracketed (lit "[") (lit "]") indent
        (map (serialize (indent ++ lit "  ")) elements)
  | JObject members =>
      bracketed (lit "{") (lit "}") indent
        (map (fun kv => quoteJSON (fst kv) ++ lit ": " ++ snd kv)
           (propertyOrder
              (map (fun kv => (fst kv, serialize (indent ++ lit "  ") (snd kv)))
                 members)))
  end.

Definition JSON_stringify {E : Engine} (v : json) : jsstring := serialize [] v.

(** ** [components/UI.tsx]: the metadata check of [SectionCard] *)

(** What a [throw] carries: an [Error] made by the code with its
    message, or an error of the engine. *)
Inductive thrown : Type :=
| Error (message : jsstring)
| SyntaxError (text : jsstring)
| TypeError (key : jsstring) (value : json).

Definition message {E : Engine} (e : thrown) : jsstring :=
  match e with
  | Error m => m
  | SyntaxError text => syntaxErrorMessage text
  | TypeError key value => typeErrorMessage key value
  end.

(** The regular expression [/```json\n?|\n?```/]. *)
Definition re_fence (s : jsstring) : option nat :=
  if startsWith s (lit "```json") then
    match skipn 7 s with
    | c :: _ => if (c =? 10)%N then Some 8 else Some 7
    | [] => Some 7
    end
  else if startsWith s (lit "\n```") then Some 4
  else if startsWith s (lit "```") then Some 3
  else None.

Definition cleanContent (content : jsstring) : jsstring :=
  trim (replaceAll re_fence [] content).

Fixpoint lookup (members : list (jsstring * json)) (k : jsstring)
  : option json :=
  match members with
  | [] => None
  | (k', v) :: rest => if str_eqb k' k then Some v else lookup rest k
  end.

(** [k in data], for a key that no prototype and no array defines: an
    own property of an object; not a property of an array; a TypeError
    on anything else. *)
Definition in_operator (k : jsstring) (data : json) : thrown + bool :=
  match data with
  | JObject members =>
      inr (match lookup members k with Some _ => true | None => false end)
  | JArray _ => inr false
  | _ => inl (TypeError k data)
  end.

(** [data.k], for such a key; [None] is [undefined].  The code reads a
    property only after [k in data] held. *)
Definition getProperty (data : json) (k : jsstring) : option json :=
  match data with
  | JObject members => lookup members k
  | _ => None
  end.

(** [value !== text] *)
Definition strictNotEqual (value : option json) (text : jsstring) : bool :=
  match value with
  | Some (JString s) => negb (str_eqb s text)
  | _ => true
  end.

Definition required : list jsstring :=
  [lit "title"; lit "description"; lit "tags"; lit "defaultLanguage";
   lit "defaultAudioLanguage"; lit "categoryId"].

(** [required.forEach(k => { if (!(k in data)) throw ... })] *)
Fixpoint requireFields (ks : list jsstring) (data : json) : thrown + unit :=
  match ks with
  | [] => inr tt
  | k :: ks' =>
      match in_operator k data with
      | inl e => inl e
      | inr false => inl (Error (lit "Missing field: " ++ k))
      | inr true => requireFields ks' data
      end
  end.

(** The body of the [try] block. *)
Definition metadataCheck (content : jsstring) : thrown + unit :=
  let cleanContent := cleanContent content in
  let jsonStart := indexOf cleanContent (lit "{") in
  let jsonEnd := lastIndexOf cleanContent (lit "}") in
  if (jsonStart =? -1)%Z || (jsonEnd =? -1)%Z
  then inl (Error (lit "Could not find JSON object."))
  else
    let raw := slice cleanContent jsonStart (jsonEnd + 1) in
    match JSON_parse raw with
    | None => inl (SyntaxError raw)
    | Some data =>
        match requireFields required data with
        | inl e => inl e
        | inr _ =>
            if strictNotEqual (getProperty data (lit "defaultAudioLanguage"))
                 (lit "en-US")
            then inl (Error (lit "defaultAudioLanguage must be 'en-US'"))
            else if strictNotEqual (getProperty data (lit "defaultLanguage"))
                      (lit "en")
            then inl (Error (lit "defaultLanguage must be 'en'"))
            else inr tt
        end
    end.

(** The [try] with its [catch]: [None] is a passed check, [Some reason]
    a failed one. *)
Definition validateMetadata {E : Engine} (content : jsstring)
  : option jsstring :=
  match metadataCheck content with
  | inl e => Some (if truthy (message e) then message e
                   else lit "Invalid JSON")
  | inr _ => None
  end.

Definition isMeta {E : Engine} (s : section) : bool :=
  str_eqb (toLowerCase (title s)) (lit "metadata json").

Definition metaError {E : Engine} (s : section) : option jsstring :=
  if isMeta s then validateMetadata (content s) else None.

(** [extractMetadataJson] of [AnalysisResultDisplay]; [None] is [null]. *)
Definition extractMetadataJson {E : Engine} (sections : list section)
  : option jsstring :=
  match find isMeta sections with
  | None => None
  | Some meta =>
      let cleanContent := cleanContent (content meta) in
      let start := indexOf cleanContent (lit "{") in
      let end_ := lastIndexOf cleanContent (lit "}") in
      if (start =? -1)%Z || (end_ =? -1)%Z then None
      else
        match JSON_parse (slice cleanContent start (end_ + 1)) with
        | Some data => Some (JSON_stringify data)
        | None => None
        end
  end.

(** ** [App.tsx]: the checklist of required sections *)

Record checkItem := { name : jsstring; ok : bool }.

(** [found.includes(x)] *)
Definition includes (found : list jsstring) (x : jsstring) : bool :=
  existsb (fun y => str_eqb y x) found.

Definition checkRequiredSections {E : Engine} (sections : list section)
    (REQUIRED_SECTIONS : list jsstring) : list checkItem :=
  let found := map (fun s => toLowerCase (trim (title s))) sections in
  map (fun name => {| name := name; ok := includes found (toLowerCase name) |})
    REQUIRED_SECTIONS.

(** The [checklist] memo; [None] is a [null] result. *)
Definition checklist {E : Engine} (result : option jsstring)
    (REQUIRED_SECTIONS : list jsstring) : list checkItem :=
  match result with
  | None => []
  | Some text =>
      if negb (truthy text) then []
      else checkRequiredSections (parseSections text) REQUIRED_SECTIONS
  end.

(** The root of the value being read is an object. *)
Fixpoint bottomObject (stack : list frame) : bool :=
  match stack with
  | [] => false
  | f :: stack' =>
      match stack' with
      | [] => match f with FObject _ _ => true | FArray _ => false end
      | _ :: _ => bottomObject stack'
      end
  end.

Definition rootObject (st : pstate) : bool :=
  match st with
  | SValue stack | SArrayOpen stack | SArrayNext _ stack => bottomObject stack
  | SObjectOpen stack | SObjectKey _ stack | SObjectColon _ _ stack
  | SObjectNext _ stack =>
      match stack with [] => true | _ :: _ => bottomObject stack end
  | SDone (JObject _) => true
  | SDone _ => false
  end.

(** A text without its last code unit when that is a line feed. *)
Definition dropLineFeed (a : jsstring) : jsstring :=
  match rev a with
  | c :: r => if (c =? 10)%N then rev r else a
  | [] => a
  end.

(** ** The samples of the specification *)

Definition sampleContent : jsstring :=
  lit "```json\n{\'title\':\'x\',\'description\':\'y\',\'tags\':[\'a\'],\'defaultLanguage\':\'en\',\'defaultAudioLanguage\':\'en-US\',\'categoryId\':\'27\'}\n```".

Definition sampleObject : json :=
  JObject
    [ (lit "title", JString (lit "x"));
      (lit "description", JString (lit "y"));
      (lit "tags", JArray [JString (lit "a")]);
      (lit "defaultLanguage", JString (lit "en"));
      (lit "defaultAudioLanguage", JString (lit "en-US"));
      (lit "categoryId", JString (lit "27")) ].

Definition sampleExport : jsstring :=
  lit "{\n  \'title\': \'x\',\n  \'description\': \'y\',\n  \'tags\': [\n    \'a\'\n  ],\n  \'defaultLanguage\': \'en\',\n  \'defaultAudioLanguage\': \'en-US\',\n  \'categoryId\': \'27\'\n}".

(** ** [components/UI.tsx]: the rest of [SectionCard] and of
    [AnalysisResultDisplay] *)

Definition isTitle {E : Engine} (s : section) : bool :=
  str_eqb (toLowerCase (title s)) (lit "title").

(** [.length] counts code units. *)
Definition titleLength {E : Engine} (s : section) : nat :=
  if isTitle s then length (trim (content s)) else 0.

Definition titleWarn {E : Engine} (s : section) : bool :=
  isTitle s && (70 <? titleLength s).

(** The keys of the cards: [sections.map((s, i) => `${s.title}-${i}`)]. *)
Fixpoint cardKeys_from (i : nat) (sections : list section) : list jsstring :=
  match sections with
  | [] => []
  | s :: rest =>
      (title s ++ lit "-" ++ natToString i) :: cardKeys_from (S i) rest
  end.

Definition cardKeys (sections : list section) : list jsstring :=
  cardKeys_from 0 sections.

(** [downloadJson]: the text of the file that is offered, [None] when
    the callback returns early. *)
Definition downloadJson {E : Engine} (sections : list section)
  : option jsstring :=
  match extractMetadataJson sections with
  | Some raw => if truthy raw then Some raw else None
  | None => None
  end.

(** [disabled={!extractMetadataJson()}] *)
Definition downloadJsonDisabled {E : Engine} (sections : list section) : bool :=
  match extractMetadataJson sections with
  | Some raw => negb (truthy raw)
  | None => true
  end.

(** ** [App.tsx]: the prompt *)

(** The [header] of [buildPrompt]. *)
Definition promptHeader : jsstring :=
  concat
    [ lit "You are a senior YouTube strategist for the US market.\n";
      lit "\n";
      lit "TASK: Transform the input video script into a COMPLETE YouTube package in **American English** for a US audience. Optimize for SEO, retention, clarity, and shareability.\n";
      lit "AUDIENCE & TONE:\n";
      lit "- Audience: infer precisely from the script; write with empathy and respect (no lecturing).\n";
      lit "- Voice: punchy, clear, helpful peer.\n";
      lit "GOALS:\n";
      lit "- Choose ONE primary objective based on the script: [educate | entertain | persuade].\n";
      lit "- Produce a 3-layer HOOK: Thumbnail text (3";
      [8211%N];
      lit "5 words), SEO Title (<=70 chars, primary keyword near start), and first-3-second spoken hook.\n";
      lit "STRUCTURE & CRAFT RULES:\n";
      lit "- Intro: pain ";
      [8594%N];
      lit " promise.\n";
      lit "- Body: 3";
      [8211%N];
      lit "5 beats; each beat = story ";
      [8594%N];
      lit " insight ";
      [8594%N];
      lit " 1-sentence fix.\n";
      lit "- Objection flip + implementation plan.\n";
      lit "- Pattern interrupt cues every 20";
      [8211%N];
      lit "30s.\n";
      lit "- US English only.\n";
      lit "SEO RULES:\n";
      lit "- First 2 description lines must include primary keywords + a human hook.\n";
      lit "- 12";
      [8211%N];
      lit "20 tags mixing short & long-tail.\n";
      lit "- Chapters must be timestamped (mm:ss) and match content order.\n";
      lit "- Provide Metadata JSON with fields: title, description, tags (array), defaultLanguage='en', defaultAudioLanguage='en-US', categoryId='27'." ].

(** [REQUIRED_SECTIONS.map(s => `### ${s}`).join("\n")] *)
Definition formatHeadings (REQUIRED_SECTIONS : list jsstring) : jsstring :=
  join (map (fun s => lit "### " ++ s) REQUIRED_SECTIONS).

Definition buildPrompt (REQUIRED_SECTIONS : list jsstring)
    (userScript : jsstring) : jsstring :=
  let header := promptHeader in
  let format :=
    lit "\nOUTPUT FORMAT (exactly these Markdown sections, in this order; each starts with \'### \'):\n"
    ++ formatHeadings REQUIRED_SECTIONS
    ++ lit "\n\nINPUT SCRIPT:\n<<<\n"
    ++ userScript
    ++ lit "\n>>>" in
  header ++ format.

(** ** [App.tsx]: the state of the form and its handlers *)

Record appState := {
  rawScript : jsstring;
  result : option jsstring;
  isLoading : bool;
  error : option jsstring
}.

Definition initialState : appState :=
  {| rawScript := []; result := None; isLoading := false; error := None |}.

(** What the awaited [analyzeScript(prompt)] comes to: a text, or a
    thrown value with the [message] it may carry. *)
Inductive settled : Type :=
| Resolved (out : jsstring)
| Rejected (reason : option jsstring).

(** [e?.message || "An unexpected error occurred."] *)
Definition errorText (reason : option jsstring) : jsstring :=
  match reason with
  | Some m => if truthy m then m else lit "An unexpected error occurred."
  | None => lit "An unexpected error occurred."
  end.

(** [handleSubmit] up to the [await]: [None] when it returns at once,
    else the prompt that is sent and the state while it is awaited. *)
Definition handleSubmit_start (REQUIRED_SECTIONS : list jsstring)
    (st : appState) : option (jsstring * appState) :=
  if negb (truthy (trim (rawScript st))) || isLoading st then None
  else Some (buildPrompt REQUIRED_SECTIONS (rawScript st),
             {| rawScript := rawScript st; result := None;
                isLoading := true; error := None |}).

(** [handleSubmit] from the [await] on. *)
Definition handleSubmit_settle (st : appState) (r : settled) : appState :=
  match r with
  | Resolved out =>
      if startsWith out (lit "Error:")
      then {| rawScript := rawScript st; result := None;
              isLoading := false; error := Some (errorText (Some out)) |}
      else {| rawScript := rawScript st; result := Some out;
              isLoading := false; error := error st |}
  | Rejected reason =>
      {| rawScript := rawScript st; result := None;
         isLoading := false; error := Some (errorText reason) |}
  end.

(** [localStorage]: the first entry of a key is its value. *)
Definition storage := list (jsstring * jsstring).

Fixpoint getItem (store : storage) (k : jsstring) : option jsstring :=
  match store with
  | [] => None
  | (k', v) :: rest => if str_eqb k' k then Some v else getItem rest k
  end.

Fixpoint removeItem (store : storage) (k : jsstring) : storage :=
  match store with
  | [] => []
  | (k', v) :: rest =>
      if str_eqb k' k then removeItem rest k else (k', v) :: removeItem rest k
  end.

Definition setItem (store : storage) (k v : jsstring) : storage :=
  (k, v) :: removeItem store k.

(** The effect that runs on mount. *)
Definition mountEffect (store : storage) (st : appState) : appState :=
  let s := getItem store (lit "yco_script_en") in
  let r := getItem store (lit "yco_result_en") in
  {| rawScript := match s with
                  | Some s' => if truthy s' then s' else rawScript st
                  | None => rawScript st
                  end;
     result := match r with
               | Some r' => if truthy r' then Some r' else result st
               | None => result st
               end;
     isLoading := isLoading st;
     error := error st |}.

(** The effect on [rawScript]. *)
Definition scriptEffect (store : storage) (st : appState) : storage :=
  setItem store (lit "yco_script_en") (rawScript st).

(** The effect on [result]. *)
Definition resultEffect (store : storage) (st : appState) : storage :=
  match result st with
  | Some r => if truthy r then setItem store (lit "yco_result_en") r else store
  | None => store
  end.

Definition clearAll (store : storage) (st : appState) : storage * appState :=
  (removeItem (removeItem store (lit "yco_script_en")) (lit "yco_result_en"),
   {| rawScript := []; result := None; isLoading := isLoading st;
      error := None |}).

(** The dot of a required section in the list under the form. *)
Inductive dotColor : Type := Gray | Green | Red.

Definition requiredDot {E : Engine} (result : option jsstring)
    (REQUIRED_SECTIONS : list jsstring) (n : jsstring) : dotColor :=
  let item := find (fun c => str_eqb (name c) n)
                (checklist result REQUIRED_SECTIONS) in
  let ok := match item with
            | Some c => ok c
            | None => match result with Some _ => true | None => false end
            end in
  match result with
  | None => Gray
  | Some _ => if ok then Green else Red
  end.

(** * Properties *)

(** ** The primitives on small inputs *)

Example trim_samples :
  trim (lit "  a b \n") = lit "a b" /\ trim (lit "\t \r\n") = [].
Proof. split; reflexivity. Qed.

Example index_samples :
  indexOf (lit "a{b{c") (lit "{") = 1%Z
  /\ lastIndexOf (lit "a}b}c") (lit "}") = 3%Z
  /\ indexOf (lit "abc") (lit "{") = (-1)%Z
  /\ slice (lit "x{y}z") 1 4 = lit "{y}"
  /\ slice (lit "}x{") 2 1 = []
  /\ substring (lit "### T\nB") 4 5 = lit "T"
  /\ substringFrom (lit "### T\nB") 6 = lit "B".
Proof. repeat split. Qed.

Example replace_samples :
  replaceAll re_crlf (lit "\n") (lit "a\r\nb\rc\n") = lit "a\nb\nc\n"
  /\ split_headingBreak (lit "a\n### b\n###c\n###\n### d")
     = [lit "a"; lit "### b\n###c"; lit "###"; lit "### d"].
Proof. split; reflexivity. Qed.

Example JSON_parse_accepts :
  JSON_parse (lit " {\'k\': [1.5e3, -0, true, null, \'a\\u0041\\n\'], \'k\': {}} ")
  = Some (JObject [(lit "k", JObject [])])
  /\ JSON_parse (lit "[{\'a\': [[]]}, \'\']")
     = Some (JArray [JObject [(lit "a", JArray [JArray []])]; JString []]).
Proof. split; reflexivity. Qed.

Example JSON_parse_rejects :
  map (fun text => JSON_parse (lit text))
    [ "[1,]"; "{\'a\':1,}"; "01"; "1."; "-"; ".5"; "tru"; "[1 2]"; "{\'a\' 1}";
      "{a:1}"; "\'a\tb\'"; "\'\\x\'"; "{}x"; EmptyString ]%string
  = repeat None 14.
Proof. reflexivity. Qed.

Example JSON_stringify_order :
  option_map (@JSON_stringify sampleEngine)
    (JSON_parse (lit "{\'b\':[],\'10\':{},\'2\':[\'\\\'\']}"))
  = Some (lit "{\n  \'2\': [\n    \'\\\'\'\n  ],\n  \'10\': {},\n  \'b\': []\n}").
Proof. reflexivity. Qed.

(** ** Facts about the string primitives *)

Lemma str_eqb_eq (a b : jsstring) : str_eqb a b = true <-> a = b.
Proof.
  revert b; induction a as [|x a IH]; intros [|y b]; simpl; split;
    try congruence; try reflexivity.
  - intros H. apply andb_true_iff in H as [Hx Hab].
    apply N.eqb_eq in Hx. apply IH in Hab. congruence.
  - intros H. injection H as -> ->. rewrite N.eqb_refl. simpl.
    now apply IH.
Qed.

Lemma startsWith_prefix (s pat : jsstring) :
  startsWith s pat = true <-> exists r, s = pat ++ r.
Proof.
  revert s. induction pat as [|p pat IH]; intros s.
  - split; [now exists s|intros _; destruct s; reflexivity].
  - destruct s as [|c s]; simpl.
    + split; [discriminate|intros [r Hr]; discriminate].
    + rewrite andb_true_iff, N.eqb_eq, IH. split.
      * intros [-> [r ->]]. now exists r.
      * intros [r Hr]. injection Hr as -> ->. split; [reflexivity|now exists r].
Qed.

Lemma startsWith_heading (chunk : jsstring) :
  startsWith chunk (lit "### ") = true ->
  exists r, chunk = 35%N :: 35%N :: 35%N :: 32%N :: r.
Proof. intros H. apply startsWith_prefix in H. exact H. Qed.

Lemma trimStart_head (s : jsstring) (c : N) (r : jsstring) :
  trimStart s = c :: r -> isWhiteSpace c = false.
Proof.
  induction s as [|x s IH]; simpl; [discriminate|].
  destruct (isWhiteSpace x) eqn:Hx; [exact IH|].
  intros H. injection H as -> _. exact Hx.
Qed.

Lemma trimStart_fixed (c : N) (r : jsstring) :
  isWhiteSpace c = false -> trimStart (c :: r) = c :: r.
Proof. intros H. simpl. now rewrite H. Qed.

Lemma trimStart_idem (s : jsstring) : trimStart (trimStart s) = trimStart s.
Proof.
  destruct (trimStart s) as [|c r] eqn:E; [reflexivity|].
  apply trimStart_fixed. exact (trimStart_head _ _ _ E).
Qed.

(** What [trimStart] removes is a run of white space. *)
Lemma trimStart_split (s : jsstring) :
  exists ws, s = ws ++ trimStart s /\ forallb isWhiteSpace ws = true.
Proof.
  induction s as [|x s [ws [E Hws]]]; simpl.
  - exists []. split; reflexivity.
  - destruct (isWhiteSpace x) eqn:Hx.
    + exists (x :: ws). simpl. rewrite Hx, Hws. split; [congruence|reflexivity].
    + exists []. split; reflexivity.
Qed.

Lemma trimStart_blank (s : jsstring) :
  trimStart s = [] <-> forallb isWhiteSpace s = true.
Proof.
  induction s as [|x s IH]; simpl; [tauto|].
  destruct (isWhiteSpace x); simpl; [exact IH|].
  split; discriminate.
Qed.

Lemma forallb_rev {A} (f : A -> bool) (l : list A) :
  forallb f (rev l) = forallb f l.
Proof.
  induction l as [|x l IH]; simpl; [reflexivity|].
  rewrite forallb_app, IH. simpl. rewrite andb_true_r. apply andb_comm.
Qed.

Lemma trim_blank (s : jsstring) :
  trim s = [] <-> forallb isWhiteSpace s = true.
Proof.
  unfold trim, trimEnd. split.
  - intros H. apply (f_equal (@rev N)) in H. rewrite rev_involutive in H.
    simpl in H. apply trimStart_blank in H. rewrite forallb_rev in H.
    destruct (trimStart_split s) as [ws [E Hws]].
    rewrite E, forallb_app, Hws, H. reflexivity.
  - intros H. apply trimStart_blank in H. rewrite H. reflexivity.
Qed.

Lemma trimmed_trim (s : jsstring) : trimmed s -> trim s = s.
Proof.
  intros [H1 H2]. unfold trim, trimEnd. rewrite H1, H2.
  apply rev_involutive.
Qed.

Lemma trim_trimmed (s : jsstring) : trimmed (trim s).
Proof.
  unfold trimmed, trim, trimEnd. rewrite rev_involutive, trimStart_idem.
  split; [|reflexivity].
  destruct (trimStart_split (rev (trimStart s))) as [ws [E Hws]].
  set (v := trimStart (rev (trimStart s))) in *.
  apply (f_equal (@rev N)) in E. rewrite rev_involutive, rev_app_distr in E.
  destruct (rev v) as [|c r] eqn:Ev; [reflexivity|].
  apply trimStart_fixed.
  destruct (isWhiteSpace c) eqn:Hc; [|reflexivity].
  exfalso. simpl in E.
  destruct (trimStart s) as [|c' r'] eqn:Es; [discriminate|].
  injection E as -> _. apply trimStart_head in Es. congruence.
Qed.

Lemma trim_idempotent (s : jsstring) : trim (trim s) = trim s.
Proof. apply trimmed_trim, trim_trimmed. Qed.

Lemma trimmed_nil : trimmed [].
Proof. split; reflexivity. Qed.

(** A string that starts and ends with code units that are not white
    space is trimmed. *)
Lemma trimmed_ends (c : N) (mid : jsstring) (d : N) :
  isWhiteSpace c = false -> isWhiteSpace d = false ->
  trimmed (c :: mid ++ [d]).
Proof.
  intros Hc Hd. split.
  - now apply trimStart_fixed.
  - change (c :: mid ++ [d]) with ((c :: mid) ++ [d]).
    rewrite rev_app_distr. simpl rev at 1. simpl app.
    now apply trimStart_fixed.
Qed.

(** ** Searching and slicing *)

Lemma indexOf_unit_cons (x c : N) (r : jsstring) :
  indexOf (x :: r) [c]
  = if (x =? c)%N then 0%Z
    else if (indexOf r [c] <? 0)%Z then (-1)%Z else (indexOf r [c] + 1)%Z.
Proof. cbn [indexOf startsWith]. now rewrite andb_true_r. Qed.

Lemma indexOf_unit_bounds (s : jsstring) (c : N) :
  (-1 <= indexOf s [c] < Z.of_nat (length s))%Z
  \/ (s = [] /\ indexOf s [c] = (-1)%Z).
Proof.
  induction s as [|x r IH]; [right; split; reflexivity|]. left.
  rewrite indexOf_unit_cons. cbn [length].
  destruct (x =? c)%N; [lia|].
  destruct (Z.ltb_spec (indexOf r [c]) 0); lia.
Qed.

Lemma indexOf_unit_absent (s : jsstring) (c : N) :
  indexOf s [c] = (-1)%Z <-> ~ In c s.
Proof.
  induction s as [|x r IH]; [simpl; tauto|].
  rewrite indexOf_unit_cons. cbn [In].
  destruct (N.eqb_spec x c) as [->|Hx].
  - split; [discriminate|intros H; exfalso; apply H; now left].
  - destruct (Z.ltb_spec (indexOf r [c]) 0) as [Hlt|Hge].
    + assert (E : indexOf r [c] = (-1)%Z)
        by (destruct (indexOf_unit_bounds r c) as [?|[_ ?]]; lia).
      apply IH in E. split; [intros _ [?|?]; congruence|reflexivity].
    + split; [lia|]. intros H. exfalso.
      assert (E : indexOf r [c] <> (-1)%Z) by lia.
      apply E, IH. intros Hin. apply H. now right.
Qed.

Lemma indexOf_unit_found (s : jsstring) (c : N) :
  indexOf s [c] <> (-1)%Z ->
  exists r, skipn (Z.to_nat (indexOf s [c])) s = c :: r.
Proof.
  induction s as [|x r IH]; [simpl; congruence|].
  rewrite indexOf_unit_cons.
  destruct (N.eqb_spec x c) as [->|Hx]; [intros _; now exists r|].
  destruct (Z.ltb_spec (indexOf r [c]) 0) as [Hlt|Hge]; [congruence|].
  intros _. destruct IH as [r' Hr']; [lia|]. exists r'.
  replace (Z.to_nat (indexOf r [c] + 1)) with (S (Z.to_nat (indexOf r [c])))
    by lia.
  exact Hr'.
Qed.

Lemma lastIndexOf_unit_bounds (s : jsstring) (c : N) :
  (-1 <= lastIndexOf s [c])%Z.
Proof.
  induction s as [|x r IH]; [simpl; lia|]. cbn [lastIndexOf].
  destruct (Z.leb_spec 0 (lastIndexOf r [c])); [lia|].
  destruct (startsWith (x :: r) [c]); lia.
Qed.

Lemma lastIndexOf_unit_absent (s : jsstring) (c : N) :
  lastIndexOf s [c] = (-1)%Z <-> ~ In c s.
Proof.
  induction s as [|x r IH]; [simpl; tauto|].
  cbn [lastIndexOf startsWith In]. rewrite andb_true_r.
  pose proof (lastIndexOf_unit_bounds r c).
  destruct (Z.leb_spec 0 (lastIndexOf r [c])) as [Hge|Hlt].
  - split; [lia|]. intros Hn. exfalso.
    assert (E : lastIndexOf r [c] <> (-1)%Z) by lia.
    apply E, IH. intros Hin. apply Hn. now right.
  - assert (E : lastIndexOf r [c] = (-1)%Z) by lia. apply IH in E.
    destruct (N.eqb_spec x c) as [->|Hx].
    + split; [discriminate|intros Hn; exfalso; apply Hn; now left].
    + split; [intros _ [?|?]; congruence|reflexivity].
Qed.

(** The slice that starts at the first brace is empty or starts with
    that brace. *)
Lemma slice_from_found (s : jsstring) (c : N) (b : Z) :
  indexOf s [c] <> (-1)%Z ->
  slice s (indexOf s [c]) b = []
  \/ exists r, slice s (indexOf s [c]) b = c :: r.
Proof.
  intros H. destruct (indexOf_unit_found s c H) as [r Hr].
  unfold slice. cbv zeta.
  destruct (indexOf_unit_bounds s c) as [Hb|[_ ?]]; [|congruence].
  destruct (Z.ltb_spec (indexOf s [c]) 0); [lia|].
  rewrite (Z.min_l (indexOf s [c])) by lia. rewrite Hr.
  match goal with |- firstn ?n _ = _ \/ _ => destruct n end;
    [now left|right; eexists; reflexivity].
Qed.

(** ** Decimal placeholders *)

Lemma isDigit_not_space (c : N) : isDigit c = true -> isWhiteSpace c = false.
Proof.
  unfold isDigit, isWhiteSpace. intros H.
  apply andb_true_iff in H as [H1 H2].
  apply N.leb_le in H1. apply N.leb_le in H2.
  repeat match goal with
         | |- context [(?a <=? ?b)%N] =>
             let E := fresh in destruct (N.leb_spec a b) as [E|E]
         | |- context [(?a =? ?b)%N] =>
             let E := fresh in destruct (N.eqb_spec a b) as [E|E]
         end; simpl; try reflexivity; lia.
Qed.

Lemma string_of_uint_digits (d : Decimal.uint) :
  forallb isDigit
    (map N_of_ascii (list_ascii_of_string (NilEmpty.string_of_uint d))) = true.
Proof.
  induction d; simpl; try rewrite IHd; reflexivity.
Qed.

Lemma natToString_digits (n : nat) : forallb isDigit (natToString n) = true.
Proof.
  unfold natToString, NilZero.string_of_uint.
  destruct (Nat.to_uint n) eqn:E; try apply string_of_uint_digits.
  reflexivity.
Qed.

Lemma natToString_nonempty (n : nat) : natToString n <> [].
Proof.
  unfold natToString, NilZero.string_of_uint.
  destruct (Nat.to_uint n); simpl; discriminate.
Qed.

Lemma placeholder_trimmed (n : nat) :
  trimmed (lit "Section " ++ natToString n).
Proof.
  pose proof (natToString_digits n) as Hd.
  pose proof (natToString_nonempty n) as Hne.
  destruct (natToString n) as [|c r] using rev_ind; [congruence|].
  clear IHr Hne. rewrite forallb_app in Hd.
  apply andb_true_iff in Hd as [_ Hc]. simpl in Hc.
  rewrite andb_true_r in Hc. apply isDigit_not_space in Hc.
  rewrite app_assoc. simpl lit. simpl app at 2.
  exact (trimmed_ends 83%N (skipn 1 (lit "Section ") ++ r) c eq_refl Hc).
Qed.

(** ** The callback of [parseSections] *)

Lemma pushChunk_app (sections : list section) (chunk : jsstring) (idx : nat) :
  pushChunk sections chunk idx = sections ++ pushChunk [] chunk idx.
Proof.
  unfold pushChunk.
  destruct (startsWith chunk (lit "### ")); [reflexivity|].
  destruct (truthy (trim chunk)); [reflexivity|].
  now rewrite app_nil_r.
Qed.

Lemma forEach_pushChunk_app (parts : list jsstring) (idx : nat)
    (sections : list section) :
  forEach pushChunk parts idx sections
  = sections ++ forEach pushChunk parts idx [].
Proof.
  revert idx sections. induction parts as [|chunk parts IH]; intros; simpl.
  - now rewrite app_nil_r.
  - rewrite IH, (IH _ (pushChunk [] chunk idx)), (pushChunk_app sections).
    now rewrite app_assoc.
Qed.

Lemma forEach_pushChunk_cons (chunk : jsstring) (parts : list jsstring)
    (idx : nat) :
  forEach pushChunk (chunk :: parts) idx []
  = pushChunk [] chunk idx ++ forEach pushChunk parts (S idx) [].
Proof. simpl. apply forEach_pushChunk_app. Qed.

Lemma truthy_nonempty (s : jsstring) : truthy s = true <-> s <> [].
Proof. destruct s; simpl; split; congruence. Qed.

(** Whatever the callback pushes has a non-empty trimmed title and a
    trimmed content. *)
Lemma pushChunk_wf (chunk : jsstring) (idx : nat) (s : section) :
  In s (pushChunk [] chunk idx) ->
  title s <> [] /\ trimmed (title s) /\ trimmed (content s).
Proof.
  unfold pushChunk.
  destruct (startsWith chunk (lit "### ")).
  - intros [<-|[]]. cbn [title content]. split; [|split].
    + destruct (truthy (chunkTitle chunk)) eqn:E.
      * now apply truthy_nonempty.
      * discriminate.
    + destruct (truthy (chunkTitle chunk)).
      * apply trim_trimmed.
      * apply placeholder_trimmed.
    + unfold chunkContent.
      destruct (indexOf chunk (lit "\n") >? -1)%Z.
      * apply trim_trimmed.
      * apply trimmed_nil.
  - destruct (truthy (trim chunk)); [|intros []].
    intros [<-|[]]. cbn [title content].
    split; [discriminate|]. split; [|apply trim_trimmed].
    split; reflexivity.
Qed.

Lemma forEach_pushChunk_wf (parts : list jsstring) (idx : nat) (s : section) :
  In s (forEach pushChunk parts idx []) ->
  title s <> [] /\ trimmed (title s) /\ trimmed (content s).
Proof.
  revert idx. induction parts as [|chunk parts IH]; intros idx; [intros []|].
  rewrite forEach_pushChunk_cons. intros H. apply in_app_or in H as [H|H].
  - exact (pushChunk_wf _ _ _ H).
  - exact (IH _ H).
Qed.

Lemma filter_all {A} (f : A -> bool) (l : list A) :
  (forall x, In x l -> f x = true) -> filter f l = l.
Proof.
  induction l as [|x l IH]; simpl; intros H; [reflexivity|].
  rewrite (H x (or_introl eq_refl)), IH; auto.
Qed.

(** The closing [filter] keeps everything, and the parse is the run of
    the callback over the chunks. *)
Lemma parseSections_nonblank (result : jsstring) :
  trim result <> [] ->
  parseSections result
  = forEach pushChunk
      (split_headingBreak (replaceAll re_crlf (lit "\n") result)) 0 [].
Proof.
  intros H. unfold parseSections.
  apply truthy_nonempty in H. rewrite H. simpl negb. cbv iota.
  apply filter_all. intros s Hs.
  apply forEach_pushChunk_wf in Hs as [Ht _].
  apply truthy_nonempty in Ht. now rewrite Ht.
Qed.

(** ** Line-ending normalisation *)

Lemma replace_crlf_cons (c : N) (r : jsstring) :
  replaceAll re_crlf (lit "\n") (c :: r)
  = if (c =? 13)%N
    then 10%N :: replaceAll re_crlf (lit "\n")
                   (match r with
                    | d :: r' => if (d =? 10)%N then r' else r
                    | [] => r
                    end)
    else c :: replaceAll re_crlf (lit "\n") r.
Proof.
  unfold replaceAll. cbn [replaceAll_from re_crlf].
  destruct (c =? 13)%N; [|reflexivity].
  destruct r as [|d r]; [reflexivity|].
  destruct (d =? 10)%N; reflexivity.
Qed.

Lemma replace_crlf_space_upto (n : nat) (s : jsstring) :
  length s <= n ->
  forallb isWhiteSpace (replaceAll re_crlf (lit "\n") s)
  = forallb isWhiteSpace s
  /\ length (replaceAll re_crlf (lit "\n") s) <= length s.
Proof.
  revert s. induction n as [|n IH]; intros [|c r] Hlen; simpl in Hlen;
    try (split; [reflexivity|apply Nat.le_refl]); [lia|].
  rewrite replace_crlf_cons. destruct (N.eqb_spec c 13) as [->|Hc].
  - destruct r as [|d r].
    + split; [reflexivity|apply Nat.le_refl].
    + destruct (N.eqb_spec d 10) as [->|Hd].
      * destruct (IH r) as [E L]; [simpl in Hlen; lia|].
        cbn [forallb length]. rewrite E. split; [reflexivity|lia].
      * destruct (IH (d :: r)) as [E L]; [simpl in *; lia|].
        cbn [forallb length] in *. rewrite E.
        split; [reflexivity|lia].
  - destruct (IH r) as [E L]; [lia|]. cbn [forallb length]. rewrite E.
    split; [reflexivity|lia].
Qed.

Lemma replace_crlf_space (s : jsstring) :
  forallb isWhiteSpace (replaceAll re_crlf (lit "\n") s)
  = forallb isWhiteSpace s.
Proof. exact (proj1 (replace_crlf_space_upto _ s (Nat.le_refl _))). Qed.

Lemma replace_crlf_length (s : jsstring) :
  length (replaceAll re_crlf (lit "\n") s) <= length s.
Proof. exact (proj2 (replace_crlf_space_upto _ s (Nat.le_refl _))). Qed.

(** ** The split at heading breaks *)

Lemma split_nonempty (s : jsstring) : split_headingBreak s <> [].
Proof.
  destruct s as [|c r]; [discriminate|].
  cbn [split_headingBreak].
  destruct (re_headingBreak (c :: r)); [discriminate|].
  destruct (split_headingBreak r); discriminate.
Qed.

(** No break starts at a code unit that is not a line feed. *)
Lemma split_cons_keep (c : N) (r : jsstring) :
  re_headingBreak (c :: r) = false ->
  exists chunk chunks,
    split_headingBreak r = chunk :: chunks
    /\ split_headingBreak (c :: r) = (c :: chunk) :: chunks.
Proof.
  intros H. cbn [split_headingBreak]. rewrite H.
  destruct (split_headingBreak r) as [|chunk chunks] eqn:E.
  - now apply split_nonempty in E.
  - now exists chunk, chunks.
Qed.

Lemma headingBreak_linefeed (c : N) (r : jsstring) :
  c <> 10%N -> re_headingBreak (c :: r) = false.
Proof.
  intros H. unfold re_headingBreak.
  destruct r as [|h1 [|h2 [|h3 [|w r]]]]; try reflexivity.
  apply N.eqb_neq in H. now rewrite H.
Qed.

Lemma join_cons (chunk : jsstring) (chunks : list jsstring) :
  chunks <> [] -> join (chunk :: chunks) = chunk ++ 10%N :: join chunks.
Proof. destruct chunks; [congruence|reflexivity]. Qed.

(** Joining the chunks with line feeds gives the text back: the split
    removes nothing but the line feed of each break. *)
Lemma join_split (s : jsstring) : join (split_headingBreak s) = s.
Proof.
  induction s as [|c r IH]; [reflexivity|].
  cbn [split_headingBreak].
  destruct (re_headingBreak (c :: r)) eqn:H.
  - rewrite join_cons by apply split_nonempty. rewrite IH. simpl.
    unfold re_headingBreak in H.
    destruct r as [|h1 [|h2 [|h3 [|w r]]]]; try discriminate.
    destruct (N.eqb_spec c 10) as [->|]; [reflexivity|discriminate].
  - destruct (split_headingBreak r) as [|chunk chunks] eqn:E.
    + now apply split_nonempty in E.
    + destruct chunks as [|chunk' chunks]; simpl in *; congruence.
Qed.

Lemma split_length (s : jsstring) :
  length (split_headingBreak s) <= Nat.max 1 (length s).
Proof.
  induction s as [|c r IH]; [simpl; lia|].
  cbn [split_headingBreak].
  destruct (re_headingBreak (c :: r)) eqn:H.
  - unfold re_headingBreak in H.
    destruct r as [|h1 r']; [discriminate|]. cbn [length] in *. lia.
  - destruct (split_headingBreak r) as [|chunk chunks] eqn:E.
    + simpl; lia.
    + cbn [length] in *. lia.
Qed.

(** A heading line is cut off from the text before it. *)
Lemma split_before_heading (a b : jsstring) :
  startsWith b (lit "### ") = true ->
  exists pre,
    pre <> []
    /\ split_headingBreak (a ++ 10%N :: b) = pre ++ split_headingBreak b
    /\ join pre = a.
Proof.
  intros Hb.
  assert (Hbreak : re_headingBreak (10%N :: b) = true).
  { apply startsWith_heading in Hb as [r ->]. reflexivity. }
  induction a as [|c a (pre & Hne & Hs & Hj)].
  - exists [[]]. split; [discriminate|].
    cbn [app split_headingBreak]. rewrite Hbreak. split; reflexivity.
  - cbn [app split_headingBreak].
    destruct (re_headingBreak (c :: a ++ 10%N :: b)) eqn:H.
    + exists ([] :: pre). split; [discriminate|]. rewrite Hs.
      split; [reflexivity|]. rewrite join_cons by assumption.
      rewrite Hj. simpl.
      destruct (N.eq_dec c 10) as [->|Hc]; [reflexivity|].
      now rewrite headingBreak_linefeed in H.
    + rewrite Hs. destruct pre as [|chunk chunks]; [congruence|].
      exists ((c :: chunk) :: chunks). split; [discriminate|].
      split; [reflexivity|].
      destruct chunks; simpl in *; congruence.
Qed.

(** The first chunk of a text keeps the first three code units of the
    text when none of them is a line feed. *)
Lemma split_head_hashes (w : N) (r : jsstring) :
  exists chunk chunks,
    split_headingBreak (35%N :: 35%N :: 35%N :: w :: r)
    = (35%N :: 35%N :: 35%N :: chunk) :: chunks
    /\ (w <> 10%N -> exists chunk', chunk = w :: chunk').
Proof.
  destruct (split_cons_keep 35 (35%N :: 35%N :: w :: r))
    as (c1 & l1 & E1 & ->); [now apply headingBreak_linefeed|].
  destruct (split_cons_keep 35 (35%N :: w :: r))
    as (c2 & l2 & E2 & E2'); [now apply headingBreak_linefeed|].
  destruct (split_cons_keep 35 (w :: r))
    as (c3 & l3 & E3 & E3'); [now apply headingBreak_linefeed|].
  rewrite E2' in E1. injection E1 as <- <-.
  rewrite E3' in E2. injection E2 as <- <-.
  exists c3, l3. split; [reflexivity|].
  intros Hw.
  destruct (split_cons_keep w r) as (c4 & l4 & E4 & E4');
    [now apply headingBreak_linefeed|].
  rewrite E4' in E3. injection E3 as <- <-. now exists c4.
Qed.

Lemma split_heading_first (b : jsstring) :
  startsWith b (lit "### ") = true ->
  exists chunk chunks,
    split_headingBreak b = chunk :: chunks
    /\ startsWith chunk (lit "### ") = true.
Proof.
  intros Hb. apply startsWith_heading in Hb as [b' ->].
  destruct (split_head_hashes 32 b') as (chunk & chunks & E & Hw).
  destruct Hw as [chunk' ->]; [discriminate|].
  rewrite E. eexists _, _. split; reflexivity.
Qed.

(** Every chunk but the first starts with the three hashes that the
    lookahead of the break saw. *)
Lemma split_tail_hashes (s : jsstring) :
  Forall startsWithHashes (tl (split_headingBreak s)).
Proof.
  induction s as [|c r IH]; [constructor|].
  cbn [split_headingBreak].
  destruct (re_headingBreak (c :: r)) eqn:H.
  - cbn [tl]. unfold re_headingBreak in H.
    destruct r as [|h1 [|h2 [|h3 [|w r]]]]; try discriminate.
    apply andb_true_iff in H as [H _].
    apply andb_true_iff in H as [H H3].
    apply andb_true_iff in H as [H H2].
    apply andb_true_iff in H as [_ H1].
    apply N.eqb_eq in H1, H2, H3. subst.
    destruct (split_head_hashes w r) as (chunk & chunks & E & _).
    rewrite E in *. constructor; [now exists chunk|exact IH].
  - destruct (split_headingBreak r); [constructor|exact IH].
Qed.

Lemma hashes_nonblank (chunk : jsstring) :
  startsWithHashes chunk -> trim chunk <> [].
Proof.
  intros [r ->] H. apply trim_blank in H. discriminate.
Qed.

Lemma heading_nonblank (chunk : jsstring) :
  startsWith chunk (lit "### ") = true -> trim chunk <> [].
Proof.
  intros H. apply hashes_nonblank.
  apply startsWith_heading in H as [r ->]. now exists (32%N :: r).
Qed.

Lemma join_space (chunks : list jsstring) (chunk : jsstring) :
  forallb isWhiteSpace (join chunks) = true ->
  In chunk chunks -> forallb isWhiteSpace chunk = true.
Proof.
  induction chunks as [|x chunks IH]; [intros _ []|].
  destruct chunks as [|y chunks].
  - simpl. intros H [<-|[]]. exact H.
  - rewrite join_cons by discriminate. rewrite forallb_app. cbn [forallb].
    intros H. apply andb_true_iff in H as [Hx H].
    apply andb_true_iff in H as [_ H].
    intros [<-|Hin]; [exact Hx|]. now apply IH.
Qed.

(** A text with a chunk that is not blank is not blank. *)
Lemma chunk_nonblank_result (result chunk : jsstring) :
  In chunk (split_headingBreak (replaceAll re_crlf (lit "\n") result)) ->
  trim chunk <> [] -> trim result <> [].
Proof.
  intros Hin Hc Hr. apply Hc. apply trim_blank.
  apply trim_blank in Hr. rewrite <- replace_crlf_space in Hr.
  rewrite <- (join_split (replaceAll re_crlf (lit "\n") result)) in Hr.
  exact (join_space _ _ Hr Hin).
Qed.

Lemma split_no_linefeed (s : jsstring) :
  ~ In 10%N s -> split_headingBreak s = [s].
Proof.
  induction s as [|c r IH]; [reflexivity|].
  intros H. cbn [split_headingBreak].
  rewrite headingBreak_linefeed by (intros ->; apply H; now left).
  rewrite IH; [reflexivity|]. intros Hin. apply H. now right.
Qed.

Lemma pushChunk_length (chunk : jsstring) (idx : nat) :
  length (pushChunk [] chunk idx) <= 1.
Proof.
  unfold pushChunk. destruct (startsWith chunk (lit "### ")); [simpl; lia|].
  destruct (truthy (trim chunk)); simpl; lia.
Qed.

Lemma forEach_pushChunk_length (parts : list jsstring) (idx : nat) :
  length (forEach pushChunk parts idx []) <= length parts.
Proof.
  revert idx. induction parts as [|chunk parts IH]; intros idx; [simpl; lia|].
  rewrite forEach_pushChunk_cons, length_app. cbn [length].
  pose proof (pushChunk_length chunk idx). pose proof (IH (S idx)). lia.
Qed.

(** A chunk that is not blank pushes exactly one section. *)
Lemma pushChunk_nonblank (chunk : jsstring) (idx : nat) :
  trim chunk <> [] -> exists s, pushChunk [] chunk idx = [s].
Proof.
  intros H. unfold pushChunk.
  destruct (startsWith chunk (lit "### ")); [eexists; reflexivity|].
  apply truthy_nonempty in H. rewrite H. eexists; reflexivity.
Qed.

Lemma pushChunk_blank (sections : list section) (chunk : jsstring)
    (idx : nat) :
  trim chunk = [] -> pushChunk sections chunk idx = sections.
Proof.
  intros H. unfold pushChunk.
  destruct (startsWith chunk (lit "### ")) eqn:E.
  - now apply heading_nonblank in E.
  - now rewrite H.
Qed.

(** When no chunk is blank, the section of the chunk at position [j]
    is at position [j] of what the loop pushes. *)
Lemma forEach_pushChunk_nth (parts : list jsstring) (idx j : nat)
    (chunk : jsstring) :
  Forall (fun c => trim c <> []) parts ->
  nth_error parts j = Some chunk ->
  exists s, pushChunk [] chunk (idx + j) = [s]
            /\ nth_error (forEach pushChunk parts idx []) j = Some s.
Proof.
  revert idx j. induction parts as [|c parts IH]; intros idx j Hall Hj.
  - destruct j; discriminate.
  - inversion Hall as [|? ? Hc Hparts]; subst.
    rewrite forEach_pushChunk_cons.
    destruct (pushChunk_nonblank c idx Hc) as [s0 E0]. rewrite E0.
    destruct j as [|j]; simpl in Hj.
    + injection Hj as <-. rewrite Nat.add_0_r. now exists s0.
    + destruct (IH (S idx) j Hparts Hj) as (s & Es & Hs).
      exists s. rewrite Nat.add_succ_r. split; [exact Es|exact Hs].
Qed.

(** ** The parser *)

(** C1: for every input string [parseSections] returns a sequence of
    sections (the function is total: its body has no failing step),
    never longer than the input, and the sequence is empty whenever the
    input is empty or made of white space only. *)
Theorem parseSections_total (result : jsstring) :
  (exists sections, parseSections result = sections
                    /\ length sections <= length result)
  /\ (forallb isWhiteSpace result = true -> parseSections result = []).
Proof.
  split.
  - eexists. split; [reflexivity|].
    destruct (trim result) as [|c r] eqn:E.
    + unfold parseSections. rewrite E. simpl. lia.
    + rewrite parseSections_nonblank by congruence.
      pose proof (forEach_pushChunk_length
        (split_headingBreak (replaceAll re_crlf (lit "\n") result)) 0).
      pose proof (split_length (replaceAll re_crlf (lit "\n") result)).
      pose proof (replace_crlf_length result).
      destruct result; [discriminate|]. cbn [length] in *. lia.
  - intros H. apply trim_blank in H. unfold parseSections. now rewrite H.
Qed.

Lemma parseSections_total_witness :
  parseSections [] = [] /\ parseSections (lit "   ") = [].
Proof.
  split.
  - exact (proj2 (parseSections_total []) eq_refl).
  - exact (proj2 (parseSections_total (lit "   ")) eq_refl).
Defined.

(** C2: the text is split immediately before every line that begins
    with the heading marker: the chunks of [a], a line feed, then a
    heading line [b] are chunks that join back to [a] followed by the
    chunks of [b], the first of which still begins with the marker; the
    split removes nothing but line feeds, so a marker in the middle of a
    line starts no chunk; a chunk that is a heading line alone has an
    empty content; and the two sample texts parse to the sections the
    specification lists. *)
Theorem parseSections_splits_before_headings :
  (forall a b, startsWith b (lit "### ") = true ->
     exists pre chunk chunks,
       split_headingBreak (a ++ lit "\n" ++ b) = pre ++ chunk :: chunks
       /\ pre <> [] /\ join pre = a
       /\ split_headingBreak b = chunk :: chunks
       /\ startsWith chunk (lit "### ") = true)
  /\ (forall s, join (split_headingBreak s) = s)
  /\ (forall s, ~ In 10%N s -> split_headingBreak s = [s])
  /\ (forall chunk, ~ In 10%N chunk -> chunkContent chunk = [])
  /\ parseSections (lit "### Title\nA\n### Tags\nB")
     = [ {| title := lit "Title"; content := lit "A" |};
         {| title := lit "Tags"; content := lit "B" |} ]
  /\ parseSections (lit "### Title\n### Tags\nB")
     = [ {| title := lit "Title"; content := [] |};
         {| title := lit "Tags"; content := lit "B" |} ]
  /\ parseSections (lit "Notes ### Title")
     = [ {| title := lit "Overview"; content := lit "Notes ### Title" |} ].
Proof.
  split; [|split; [exact join_split|split; [exact split_no_linefeed|split]]].
  - intros a b Hb.
    destruct (split_before_heading a b Hb) as (pre & Hne & Hs & Hj).
    destruct (split_heading_first b Hb) as (chunk & chunks & E & Hc).
    exists pre, chunk, chunks.
    change (lit "\n" ++ b) with (10%N :: b). rewrite Hs, E. auto.
  - intros chunk H. unfold chunkContent.
    apply (indexOf_unit_absent chunk 10) in H.
    change (lit "\n") with [10%N]. now rewrite H.
  - repeat split; reflexivity.
Qed.

Lemma parseSections_splits_before_headings_witness :
  exists pre chunk chunks,
    split_headingBreak (lit "Intro" ++ lit "\n" ++ lit "### Title\nA")
    = pre ++ chunk :: chunks
    /\ pre <> [] /\ join pre = lit "Intro"
    /\ split_headingBreak (lit "### Title\nA") = chunk :: chunks
    /\ startsWith chunk (lit "### ") = true.
Proof.
  exact (proj1 parseSections_splits_before_headings
           (lit "Intro") (lit "### Title\nA") eq_refl).
Defined.

(** C5: when the first chunk does not begin with the heading marker and
    is not blank, the parse starts with a section titled Overview whose
    content is the trimmed chunk, followed by what the loop pushes for
    the remaining chunks, in order; a blank chunk pushes nothing; and
    the sample text parses as the specification says. *)
Theorem parseSections_overview (result chunk : jsstring)
    (rest : list jsstring) :
  split_headingBreak (replaceAll re_crlf (lit "\n") result) = chunk :: rest ->
  startsWith chunk (lit "### ") = false ->
  trim chunk <> [] ->
  parseSections result
  = {| title := lit "Overview"; content := trim chunk |}
      :: forEach pushChunk rest 1 []
  /\ (forall sections blank idx,
        trim blank = [] -> pushChunk sections blank idx = sections)
  /\ parseSections (lit "Intro text\n### Title\nA")
     = [ {| title := lit "Overview"; content := lit "Intro text" |};
         {| title := lit "Title"; content := lit "A" |} ].
Proof.
  intros Hsplit Hstart Hchunk. split; [|split].
  - rewrite parseSections_nonblank.
    + rewrite Hsplit, forEach_pushChunk_cons. unfold pushChunk at 1.
      rewrite Hstart. apply truthy_nonempty in Hchunk. now rewrite Hchunk.
    + apply (chunk_nonblank_result result chunk); [|exact Hchunk].
      rewrite Hsplit. now left.
  - exact pushChunk_blank.
  - reflexivity.
Qed.

Lemma parseSections_overview_witness :
  parseSections (lit "Preface\r\n### Tags\nB")
  = {| title := lit "Overview"; content := trim (lit "Preface") |}
      :: forEach pushChunk [lit "### Tags\nB"] 1 [].
Proof.
  refine (proj1 (parseSections_overview (lit "Preface\r\n### Tags\nB")
                   (lit "Preface") [lit "### Tags\nB"] eq_refl eq_refl _)).
  discriminate.
Defined.

(** C7, as the code has it: a heading chunk whose title is empty after
    trimming gets the title Section k, where k is the 1-based position
    of the chunk among the chunks of the split, a blank first chunk
    included; its section stands one place earlier in the parse when
    such a blank first chunk was dropped, and at the chunk's own place
    otherwise. *)
Theorem placeholder_counts_chunks (result : jsstring) (i : nat)
    (chunk : jsstring) :
  let parts := split_headingBreak (replaceAll re_crlf (lit "\n") result) in
  nth_error parts i = Some chunk ->
  startsWith chunk (lit "### ") = true ->
  chunkTitle chunk = [] ->
  nth_error (parseSections result) (i - droppedBefore parts)
  = Some {| title := lit "Section " ++ natToString (i + 1);
            content := chunkContent chunk |}.
Proof.
  intros parts Hi Hstart Htitle.
  assert (Hpush : forall idx,
             pushChunk [] chunk idx
             = [{| title := lit "Section " ++ natToString (idx + 1);
                   content := chunkContent chunk |}]).
  { intros idx. unfold pushChunk. now rewrite Hstart, Htitle. }
  pose proof (heading_nonblank chunk Hstart) as Hchunk.
  rewrite parseSections_nonblank
    by (apply (chunk_nonblank_result result chunk);
        [exact (nth_error_In _ _ Hi)|exact Hchunk]).
  pose proof (split_tail_hashes (replaceAll re_crlf (lit "\n") result))
    as Htail.
  fold parts in Htail |- *.
  destruct parts as [|first rest]; [destruct i; discriminate|].
  cbn [tl] in Htail. rewrite forEach_pushChunk_cons.
  destruct i as [|j]; cbn [nth_error] in Hi.
  - injection Hi as ->. cbn [droppedBefore].
    apply truthy_nonempty in Hchunk. rewrite Hchunk, Hpush. reflexivity.
  - assert (Hrest : Forall (fun c => trim c <> []) rest).
    { revert Htail. apply Forall_impl. exact hashes_nonblank. }
    destruct (forEach_pushChunk_nth rest 1 j chunk Hrest Hi)
      as (s & Es & Hs).
    rewrite Hpush in Es. injection Es as <-.
    cbn [droppedBefore].
    destruct (trim first) as [|c r] eqn:Ef.
    + rewrite (pushChunk_blank [] first 0 Ef). cbn [truthy app].
      replace (S j - 1) with j by lia. exact Hs.
    + destruct (pushChunk_nonblank first 0) as [s0 E0]; [congruence|].
      rewrite E0. cbn [truthy app]. replace (S j - 0) with (S j) by lia.
      exact Hs.
Qed.

Lemma placeholder_counts_chunks_witness :
  nth_error (parseSections (lit "  \n### \nB")) 0
  = Some {| title := lit "Section 2"; content := lit "B" |}.
Proof.
  exact (placeholder_counts_chunks (lit "  \n### \nB") 1 (lit "### \nB")
           eq_refl eq_refl eq_refl).
Defined.

(** C7, as it is stated, fails: after a blank first chunk the heading
    with an empty title is the first section of the parse and is named
    Section 2. *)
Lemma placeholder_position_counterexample :
  let result := lit "  \n### \nB" in
  split_headingBreak (replaceAll re_crlf (lit "\n") result)
  = [lit "  "; lit "### \nB"]
  /\ chunkTitle (lit "### \nB") = []
  /\ parseSections result
     = [ {| title := lit "Section 2"; content := lit "B" |} ]
  /\ (exists s, nth_error (parseSections result) 0 = Some s
                /\ title s <> lit "Section " ++ natToString 1).
Proof.
  repeat split. eexists. split; [reflexivity|discriminate].
Qed.

(** C9: every section of a parse has a non-empty title, and its title
    and its content are their own trimmed forms. *)
Theorem parseSections_trimmed (result : jsstring) (s : section) :
  In s (parseSections result) ->
  title s <> [] /\ trim (title s) = title s /\ trim (content s) = content s.
Proof.
  unfold parseSections.
  destruct (negb (truthy (trim result))); [intros []|].
  intros H. apply filter_In in H as [H _].
  apply forEach_pushChunk_wf in H as (Ht & Htitle & Hcontent).
  auto using trimmed_trim.
Qed.

Lemma parseSections_trimmed_witness :
  lit "Section 1" <> []
  /\ trim (lit "Section 1") = lit "Section 1"
  /\ trim (lit "x  y") = lit "x  y".
Proof.
  exact (parseSections_trimmed (lit "###   \n x  y \n")
           {| title := lit "Section 1"; content := lit "x  y" |}
           (or_introl eq_refl)).
Defined.

(** C10: there is a text in which lines after the first begin with three
    hashes and a tab; the split starts a chunk at each of them, none of
    these chunks begins with the heading marker, and each becomes a
    section titled Overview whose content keeps the hashes: Overview
    occurs after the first position and more than once. *)
Theorem overview_after_first_position :
  exists result,
    result = lit "Intro\n###\tNotes\n###\tMore"
    /\ isWhiteSpace 9 = true
    /\ split_headingBreak (replaceAll re_crlf (lit "\n") result)
       = [lit "Intro"; lit "###\tNotes"; lit "###\tMore"]
    /\ startsWith (lit "###\tNotes") (lit "### ") = false
    /\ startsWith (lit "###\tMore") (lit "### ") = false
    /\ parseSections result
       = [ {| title := lit "Overview"; content := lit "Intro" |};
           {| title := lit "Overview"; content := lit "###\tNotes" |};
           {| title := lit "Overview"; content := lit "###\tMore" |} ].
Proof.
  eexists. split; [reflexivity|]. repeat split.
Qed.

(** ** A text that opens with a brace parses to an object *)

Lemma bottomObject_cons (f : frame) (stack : list frame) :
  bottomObject stack = true -> bottomObject (f :: stack) = true.
Proof. destruct stack; [discriminate|intros H; exact H]. Qed.

Lemma complete_rooted (v : json) (stack : list frame) :
  bottomObject stack = true -> rootObject (complete v stack) = true.
Proof.
  destruct stack as [|[done|done key] [|f stack]]; simpl; congruence.
Qed.

Lemma complete_object_rooted (members : list (jsstring * json))
    (stack : list frame) :
  match stack with [] => true | _ :: _ => bottomObject stack end = true ->
  rootObject (complete (JObject members) stack) = true.
Proof.
  destruct stack as [|f stack]; [reflexivity|]. apply complete_rooted.
Qed.

Lemma startValue_rooted (t : token) (stack : list frame) (st : pstate) :
  bottomObject stack = true -> startValue t stack = Some st ->
  rootObject st = true.
Proof.
  intros Hb. destruct t; simpl; intros H; inversion H; subst; clear H;
    try (now apply complete_rooted).
  - simpl. destruct stack; [discriminate|exact Hb].
  - exact Hb.
Qed.

Lemma pstep_rooted (st st' : pstate) (t : token) :
  rootObject st = true -> pstep st t = Some st' -> rootObject st' = true.
Proof.
  destruct st as [stack|stack|done stack|stack|done stack|done key stack
                 |done stack|v]; cbn [rootObject pstep]; intros Hr.
  - now apply startValue_rooted.
  - destruct t; try (apply startValue_rooted; now apply bottomObject_cons).
    intros H. injection H as <-. now apply complete_rooted.
  - destruct t; try discriminate; intros H; injection H as <-.
    + now apply complete_rooted.
    + cbn [rootObject]. now apply bottomObject_cons.
  - destruct t; try discriminate; intros H; injection H as <-.
    + now apply complete_object_rooted.
    + exact Hr.
  - destruct t; try discriminate. intros H; injection H as <-. exact Hr.
  - destruct t; try discriminate. intros H; injection H as <-.
    cbn [rootObject]. destruct stack; [reflexivity|exact Hr].
  - destruct t; try discriminate; intros H; injection H as <-.
    + now apply complete_object_rooted.
    + exact Hr.
  - discriminate.
Qed.

Lemma prun_rooted (ts : list token) (st : pstate) (v : json) :
  rootObject st = true -> prun st ts = Some v ->
  exists members, v = JObject members.
Proof.
  revert st. induction ts as [|t ts IH]; intros st Hr; cbn [prun].
  - destruct st; try discriminate. intros H. injection H as ->.
    destruct v; try discriminate. now eexists.
  - destruct (pstep st t) as [st'|] eqn:E; [|discriminate].
    apply IH. exact (pstep_rooted _ _ _ Hr E).
Qed.

Lemma JSON_parse_brace (r : jsstring) (data : json) :
  JSON_parse (123%N :: r) = Some data -> exists members, data = JObject members.
Proof.
  unfold JSON_parse, tokenize.
  change (tokenize_from 0 (123%N :: r))
    with (match tokenize_from 0 r with
          | Some ts => Some (TLBrace :: ts)
          | None => None
          end).
  destruct (tokenize_from 0 r) as [ts|]; [|discriminate].
  change (prun (SValue []) (TLBrace :: ts)) with (prun (SObjectOpen []) ts).
  now apply prun_rooted.
Qed.

(** ** The required fields *)

Lemma requireFields_missing (members : list (jsstring * json))
    (present : list jsstring) (k : jsstring) (absent : list jsstring) :
  (forall k', In k' present -> lookup members k' <> None) ->
  lookup members k = None ->
  requireFields (present ++ k :: absent) (JObject members)
  = inl (Error (lit "Missing field: " ++ k)).
Proof.
  intros Hp Hk. induction present as [|p present IH];
    cbn [app requireFields in_operator].
  - now rewrite Hk.
  - destruct (lookup members p) eqn:E.
    + apply IH. intros k' Hin. apply Hp. now right.
    + exfalso. apply (Hp p); [now left|exact E].
Qed.

Lemma requireFields_present (members : list (jsstring * json))
    (ks : list jsstring) :
  (forall k, In k ks -> lookup members k <> None) ->
  requireFields ks (JObject members) = inr tt.
Proof.
  induction ks as [|k ks IH]; intros H; cbn [requireFields in_operator];
    [reflexivity|].
  destruct (lookup members k) eqn:E.
  - apply IH. intros k' Hin. apply H. now right.
  - exfalso. apply (H k); [now left|exact E].
Qed.

Lemma strictNotEqual_false (value : option json) (text : jsstring) :
  strictNotEqual value text = false <-> value = Some (JString text).
Proof.
  destruct value as [[]|]; simpl; split; try discriminate.
  - intros H. apply negb_false_iff, str_eqb_eq in H. now subst.
  - intros H. injection H as ->. apply negb_false_iff, str_eqb_eq.
    reflexivity.
Qed.

(** ** The metadata check *)

Section MetadataCheck.
Context {E : Engine}.

Lemma validateMetadata_thrown (content : jsstring) (e : thrown) :
  metadataCheck content = inl e ->
  validateMetadata content
  = Some (if truthy (message e) then message e else lit "Invalid JSON").
Proof. unfold validateMetadata. now intros ->. Qed.

Lemma validateMetadata_passed (content : jsstring) :
  metadataCheck content = inr tt -> validateMetadata content = None.
Proof. unfold validateMetadata. now intros ->. Qed.

Lemma metadataCheck_no_object (content : jsstring) :
  ~ In 123%N (cleanContent content) \/ ~ In 125%N (cleanContent content) ->
  metadataCheck content = inl (Error (lit "Could not find JSON object.")).
Proof.
  intros H. unfold metadataCheck.
  change (lit "{") with [123%N]. change (lit "}") with [125%N].
  destruct H as [H|H].
  - apply indexOf_unit_absent in H. now rewrite H.
  - apply lastIndexOf_unit_absent in H. rewrite H. now rewrite orb_true_r.
Qed.

Lemma metadataCheck_object (content : jsstring) :
  In 123%N (cleanContent content) -> In 125%N (cleanContent content) ->
  let clean := cleanContent content in
  let raw := slice clean (indexOf clean (lit "{"))
               (lastIndexOf clean (lit "}") + 1) in
  metadataCheck content
  = match JSON_parse raw with
    | None => inl (SyntaxError raw)
    | Some data =>
        match requireFields required data with
        | inl e => inl e
        | inr _ =>
            if strictNotEqual (getProperty data (lit "defaultAudioLanguage"))
                 (lit "en-US")
            then inl (Error (lit "defaultAudioLanguage must be 'en-US'"))
            else if strictNotEqual (getProperty data (lit "defaultLanguage"))
                      (lit "en")
            then inl (Error (lit "defaultLanguage must be 'en'"))
            else inr tt
        end
    end
  /\ forall data, JSON_parse raw = Some data ->
                  exists members, data = JObject members.
Proof.
  intros Hopen Hclose clean raw. split.
  - unfold metadataCheck. fold clean.
    destruct (Z.eqb_spec (indexOf clean (lit "{")) (-1)) as [H|_].
    { apply (indexOf_unit_absent clean 123) in H. contradiction. }
    destruct (Z.eqb_spec (lastIndexOf clean (lit "}")) (-1)) as [H|_].
    { apply (lastIndexOf_unit_absent clean 125) in H. contradiction. }
    reflexivity.
  - intros data Hdata.
    assert (Hfound : indexOf clean [123%N] <> (-1)%Z).
    { intros H. apply indexOf_unit_absent in H. contradiction. }
    destruct (slice_from_found clean 123
                (lastIndexOf clean (lit "}") + 1) Hfound) as [Hraw|[r Hraw]];
      change (lit "{") with [123%N] in raw; fold raw in Hraw;
      rewrite Hraw in Hdata.
    + discriminate.
    + exact (JSON_parse_brace _ _ Hdata).
Qed.

(** C3, with the reasons the code gives.  The check always returns: what
    the [try] block throws is caught and reported as a reason that is
    not empty.  It fails with "Could not find JSON object." when the cleaned content
    has no opening or no closing brace; with the message of the engine's
    SyntaxError ("Invalid JSON" when that message is empty) when the
    text between the braces does not parse; with "Missing field: k" for
    the first k, in the order title, description, tags, defaultLanguage,
    defaultAudioLanguage, categoryId, that the parsed object lacks; then
    with "defaultAudioLanguage must be 'en-US'" when that field is not
    the string en-US; only then with "defaultLanguage must be 'en'" when
    that field is not the string en; and it passes otherwise. *)
Theorem validateMetadata_reasons (content : jsstring) :
  let clean := cleanContent content in
  let raw := slice clean (indexOf clean (lit "{"))
               (lastIndexOf clean (lit "}") + 1) in
  (~ In 123%N clean \/ ~ In 125%N clean ->
   validateMetadata content = Some (lit "Could not find JSON object."))
  /\ (In 123%N clean -> In 125%N clean -> JSON_parse raw = None ->
      validateMetadata content
      = Some (if truthy (syntaxErrorMessage raw) then syntaxErrorMessage raw
              else lit "Invalid JSON"))
  /\ (forall data,
        In 123%N clean -> In 125%N clean -> JSON_parse raw = Some data ->
        exists members,
          data = JObject members
          /\ (forall present k absent,
                required = present ++ k :: absent ->
                (forall k', In k' present -> lookup members k' <> None) ->
                lookup members k = None ->
                validateMetadata content = Some (lit "Missing field: " ++ k))
          /\ ((forall k, In k required -> lookup members k <> None) ->
              (lookup members (lit "defaultAudioLanguage")
               <> Some (JString (lit "en-US")) ->
               validateMetadata content
               = Some (lit "defaultAudioLanguage must be 'en-US'"))
              /\ (lookup members (lit "defaultAudioLanguage")
                  = Some (JString (lit "en-US")) ->
                  lookup members (lit "defaultLanguage")
                  <> Some (JString (lit "en")) ->
                  validateMetadata content
                  = Some (lit "defaultLanguage must be 'en'"))
              /\ (lookup members (lit "defaultAudioLanguage")
                  = Some (JString (lit "en-US")) ->
                  lookup members (lit "defaultLanguage")
                  = Some (JString (lit "en")) ->
                  validateMetadata content = None)))
  /\ (forall e, metadataCheck content = inl e ->
                exists reason,
                  validateMetadata content = Some reason /\ reason <> []).
Proof.
  intros clean raw. split; [|split; [|split]]; cycle 3.
  { intros e He. rewrite (validateMetadata_thrown _ _ He).
    destruct (truthy (message e)) eqn:Hm; eexists; (split; [reflexivity|]).
    - now apply truthy_nonempty.
    - discriminate. }
  - intros H.
    now rewrite (validateMetadata_thrown _ _ (metadataCheck_no_object _ H)).
  - intros Hopen Hclose Hraw.
    apply (validateMetadata_thrown content (SyntaxError raw)).
    rewrite (proj1 (metadataCheck_object content Hopen Hclose)).
    fold clean. fold raw. now rewrite Hraw.
  - intros data Hopen Hclose Hraw.
    destruct (metadataCheck_object content Hopen Hclose) as [Hcheck Hobj].
    fold clean in Hcheck, Hobj. fold raw in Hcheck, Hobj.
    destruct (Hobj data Hraw) as [members ->]. exists members.
    rewrite Hraw in Hcheck. split; [reflexivity|split].
    + intros present k absent Hreq Hpresent Hk.
      rewrite Hreq, (requireFields_missing _ _ _ _ Hpresent Hk) in Hcheck.
      now rewrite (validateMetadata_thrown _ _ Hcheck).
    + intros Hall. rewrite (requireFields_present _ _ Hall) in Hcheck.
      cbn [getProperty] in Hcheck.
      destruct (strictNotEqual
                  (lookup members (lit "defaultAudioLanguage")) (lit "en-US"))
        eqn:Haudio.
      * split; [|split].
        -- intros _. now rewrite (validateMetadata_thrown _ _ Hcheck).
        -- intros H. apply strictNotEqual_false in H. congruence.
        -- intros H. apply strictNotEqual_false in H. congruence.
      * apply strictNotEqual_false in Haudio.
        split; [intros H; contradiction|].
        destruct (strictNotEqual
                    (lookup members (lit "defaultLanguage")) (lit "en"))
          eqn:Hlang.
        -- split.
           ++ intros _ _. now rewrite (validateMetadata_thrown _ _ Hcheck).
           ++ intros _ H. apply strictNotEqual_false in H. congruence.
        -- apply strictNotEqual_false in Hlang. split.
           ++ intros _ H. contradiction.
           ++ intros _ _. now apply validateMetadata_passed.
Qed.

End MetadataCheck.

Lemma In_existsb (c : N) (s : jsstring) :
  existsb (N.eqb c) s = true -> In c s.
Proof.
  intros H. apply existsb_exists in H as [x [Hin Hx]].
  apply N.eqb_eq in Hx. now subst.
Qed.

Lemma validateMetadata_reasons_witness :
  @validateMetadata sampleEngine (lit "nothing to read")
  = Some (lit "Could not find JSON object.")
  /\ @validateMetadata sampleEngine (lit "{\'title\': 1]}")
     = Some (lit "Unexpected token in JSON")
  /\ @validateMetadata sampleEngine (lit "{\'title\':\'x\'}")
     = Some (lit "Missing field: description").
Proof.
  split; [|split].
  - apply (proj1 (@validateMetadata_reasons sampleEngine
                    (lit "nothing to read"))).
    left. vm_compute. intuition discriminate.
  - apply (proj1 (proj2 (@validateMetadata_reasons sampleEngine
                           (lit "{\'title\': 1]}")))).
    + now apply In_existsb.
    + now apply In_existsb.
    + reflexivity.
  - destruct (proj1 (proj2 (proj2 (@validateMetadata_reasons sampleEngine
                                     (lit "{\'title\':\'x\'}"))))
                (JObject [(lit "title", JString (lit "x"))]))
      as (members & Hm & Hmissing & _).
    + now apply In_existsb.
    + now apply In_existsb.
    + reflexivity.
    + injection Hm as <-.
      apply (Hmissing [lit "title"] (lit "description")
               [lit "tags"; lit "defaultLanguage";
                lit "defaultAudioLanguage"; lit "categoryId"]).
      * reflexivity.
      * intros k' [<-|[]]. discriminate.
      * reflexivity.
Defined.

(** C3, as it is stated, fails: the reasons are other strings than the
    ones it quotes. *)
Lemma validateMetadata_reasons_counterexample :
  metadataCheck (lit "nothing to read")
  = inl (Error (lit "Could not find JSON object."))
  /\ @validateMetadata sampleEngine (lit "nothing to read")
     <> Some (lit "no JSON object found")
  /\ metadataCheck (lit "{\'title\':\'x\'}")
     = inl (Error (lit "Missing field: description"))
  /\ @validateMetadata sampleEngine (lit "{\'title\':\'x\'}")
     <> Some (lit "missing field: description").
Proof.
  repeat split; discriminate.
Qed.

(** C6: the fenced sample passes the check; the text between its braces
    parses to the object it spells out; the export is that object
    printed with an indent of two, which reads back as the same
    object. *)
Theorem sample_metadata_valid {E : Engine} :
  let meta := {| title := lit "Metadata JSON"; content := sampleContent |} in
  let clean := cleanContent sampleContent in
  isMeta meta = true
  /\ metaError meta = None
  /\ validateMetadata sampleContent = None
  /\ JSON_parse (slice clean (indexOf clean (lit "{"))
                   (lastIndexOf clean (lit "}") + 1))
     = Some sampleObject
  /\ extractMetadataJson [meta] = Some sampleExport
  /\ JSON_stringify sampleObject = sampleExport
  /\ JSON_parse sampleExport = Some sampleObject.
Proof.
  intros meta clean.
  assert (Hmeta : isMeta meta = true).
  { unfold isMeta. rewrite toLowerCase_basicLatin; reflexivity. }
  assert (Hcheck : metadataCheck sampleContent = inr tt)
    by (vm_compute; reflexivity).
  assert (Hvalid : validateMetadata sampleContent = None)
    by now apply validateMetadata_passed.
  assert (Hprint : JSON_stringify sampleObject = sampleExport)
    by (vm_compute; reflexivity).
  split; [exact Hmeta|].
  split; [unfold metaError; rewrite Hmeta; exact Hvalid|].
  split; [exact Hvalid|].
  split; [vm_compute; reflexivity|].
  split; [|split; [exact Hprint|vm_compute; reflexivity]].
  unfold extractMetadataJson. cbn [find]. rewrite Hmeta.
  change (content meta) with sampleContent.
  replace (JSON_parse _) with (Some sampleObject)
    by (vm_compute; reflexivity).
  replace ((indexOf (cleanContent sampleContent) (lit "{") =? -1)%Z
           || (lastIndexOf (cleanContent sampleContent) (lit "}") =? -1)%Z)
    with false by (vm_compute; reflexivity).
  now rewrite Hprint.
Qed.

(** ** The fence stripping *)

Lemma replace_fence_keep (c : N) (r : jsstring) :
  re_fence (c :: r) = None ->
  replaceAll re_fence [] (c :: r) = c :: replaceAll re_fence [] r.
Proof. intros H. unfold replaceAll. cbn [replaceAll_from]. now rewrite H. Qed.

Lemma replace_fence_marker (b : jsstring) :
  startsWith b (lit "json") = false ->
  replaceAll re_fence [] (lit "```" ++ b) = replaceAll re_fence [] b.
Proof.
  intros H. unfold replaceAll.
  change (lit "```" ++ b) with (96%N :: 96%N :: 96%N :: b).
  assert (E : re_fence (96%N :: 96%N :: 96%N :: b) = Some 3).
  { unfold re_fence.
    change (startsWith (96%N :: 96%N :: 96%N :: b) (lit "```json"))
      with (startsWith b (lit "json")).
    now rewrite H. }
  cbn [replaceAll_from]. rewrite E. reflexivity.
Qed.

Lemma replace_fence_line (b : jsstring) :
  replaceAll re_fence [] (lit "\n```" ++ b) = replaceAll re_fence [] b.
Proof. reflexivity. Qed.

(** Text without backticks passes through, unless its last line feed is
    taken by a fence that follows. *)
Lemma replace_fence_prefix (a t : jsstring) :
  ~ In 96%N a ->
  a = [] \/ last a 0%N <> 10%N \/ startsWith t (lit "```") = false ->
  replaceAll re_fence [] (a ++ t) = a ++ replaceAll re_fence [] t.
Proof.
  induction a as [|c a IH]; intros Hin Hend; [reflexivity|].
  assert (Hc : (c =? 96)%N = false).
  { apply N.eqb_neq. intros ->. apply Hin. now left. }
  assert (Hnone : re_fence ((c :: a) ++ t) = None).
  { unfold re_fence.
    change (startsWith ((c :: a) ++ t) (lit "```json"))
      with ((c =? 96)%N && startsWith (a ++ t) (lit "``json")).
    change (startsWith ((c :: a) ++ t) (lit "```"))
      with ((c =? 96)%N && startsWith (a ++ t) (lit "``")).
    change (startsWith ((c :: a) ++ t) (lit "\n```"))
      with ((c =? 10)%N && startsWith (a ++ t) (lit "```")).
    rewrite Hc. cbn [andb].
    destruct a as [|x a].
    - destruct Hend as [Hend|[Hend|Hend]]; [discriminate| |].
      + cbn [last] in Hend. apply N.eqb_neq in Hend. now rewrite Hend.
      + cbn [app]. rewrite Hend. now rewrite andb_false_r.
    - assert (Hx : (x =? 96)%N = false).
      { apply N.eqb_neq. intros ->. apply Hin. right. now left. }
      change (startsWith ((x :: a) ++ t) (lit "```"))
        with ((x =? 96)%N && startsWith (a ++ t) (lit "``")).
      rewrite Hx. now rewrite andb_false_r. }
  change ((c :: a) ++ t) with (c :: a ++ t) in *.
  rewrite (replace_fence_keep _ _ Hnone), IH; [reflexivity| |].
  - intros H. apply Hin. now right.
  - destruct a as [|x a]; [now left|right].
    destruct Hend as [Hend|[Hend|Hend]]; [discriminate| |]; auto.
Qed.

Lemma replace_fence_tagged (b : jsstring) :
  startsWith b (lit "\n") = false ->
  replaceAll re_fence [] (lit "```json" ++ b) = replaceAll re_fence [] b.
Proof.
  intros H. unfold replaceAll.
  change (lit "```json" ++ b)
    with (96%N :: 96%N :: 96%N :: 106%N :: 115%N :: 111%N :: 110%N :: b).
  assert (E : re_fence
                (96%N :: 96%N :: 96%N :: 106%N :: 115%N :: 111%N :: 110%N :: b)
              = Some 7).
  { unfold re_fence.
    change (startsWith
              (96%N :: 96%N :: 96%N :: 106%N :: 115%N :: 111%N :: 110%N :: b)
              (lit "```json")) with true.
    cbv iota. cbn [skipn].
    destruct b as [|c b]; [reflexivity|].
    cbn in H. rewrite andb_true_r in H. now rewrite H. }
  cbn [replaceAll_from]. rewrite E. reflexivity.
Qed.

Lemma replace_fence_backtick (b : jsstring) :
  startsWith (96%N :: b) (lit "```") = false ->
  replaceAll re_fence [] (96%N :: b) = 96%N :: replaceAll re_fence [] b.
Proof.
  intros H. apply replace_fence_keep. unfold re_fence.
  destruct (startsWith (96%N :: b) (lit "```json")) eqn:E.
  - apply startsWith_prefix in E as [r E].
    assert (H' : startsWith (96%N :: b) (lit "```") = true).
    { apply startsWith_prefix. exists (lit "json" ++ r). exact E. }
    congruence.
  - now rewrite H.
Qed.

(** C8, as the code has it: the replace is global and the result is
    trimmed.  After any text [a] without backticks, which itself is
    kept: three backticks with the line feed before them are removed,
    whatever follows; when [a] does not end in a line feed, so are the
    tagged fence with the line feed after it, the tagged fence alone
    when no line feed follows, and three backticks when no tag follows;
    a backtick that does not start three of them is kept.  These cases
    cover every text.  A fence around a text without backticks is two of
    them. *)
Theorem fence_removed_anywhere (a b : jsstring) :
  ~ In 96%N a ->
  replaceAll re_fence [] (a ++ lit "\n```" ++ b)
  = a ++ replaceAll re_fence [] b
  /\ (a = [] \/ last a 0%N <> 10%N ->
      replaceAll re_fence [] (a ++ lit "```json\n" ++ b)
      = a ++ replaceAll re_fence [] b
      /\ (startsWith b (lit "\n") = false ->
          replaceAll re_fence [] (a ++ lit "```json" ++ b)
          = a ++ replaceAll re_fence [] b)
      /\ (startsWith b (lit "json") = false ->
          replaceAll re_fence [] (a ++ lit "```" ++ b)
          = a ++ replaceAll re_fence [] b))
  /\ (startsWith (96%N :: b) (lit "```") = false ->
      replaceAll re_fence [] (a ++ 96%N :: b)
      = a ++ 96%N :: replaceAll re_fence [] b)
  /\ replaceAll re_fence [] a = a
  /\ (startsWith b (lit "json") = false ->
      replaceAll re_fence [] (a ++ lit "```" ++ b)
      = dropLineFeed a ++ replaceAll re_fence [] b)
  /\ replaceAll re_fence [] (lit "```json\n" ++ a ++ lit "\n```") = a
  /\ (forall content,
        cleanContent content = trim (replaceAll re_fence [] content)).
Proof.
  intros Hin.
  assert (Hline : replaceAll re_fence [] (a ++ lit "\n```" ++ b)
                  = a ++ replaceAll re_fence [] b).
  { rewrite replace_fence_prefix by auto. now rewrite replace_fence_line. }
  split; [exact Hline|]. split; [|split; [|split; [|split; [|split]]]].
  - intros Hend.
    assert (Hkeep : forall t, replaceAll re_fence [] (a ++ t)
                              = a ++ replaceAll re_fence [] t).
    { intros t. apply replace_fence_prefix; [exact Hin|tauto]. }
    rewrite !Hkeep. split; [reflexivity|]. split; intros Hb.
    + now rewrite replace_fence_tagged.
    + now rewrite replace_fence_marker.
  - intros Hb. rewrite replace_fence_prefix by auto.
    now rewrite replace_fence_backtick.
  - rewrite <- (app_nil_r a) at 1. rewrite replace_fence_prefix.
    + apply app_nil_r.
    + exact Hin.
    + right. right. reflexivity.
  - intros Hb. unfold dropLineFeed.
    destruct a as [|x a0 _] using rev_ind.
    + cbn [rev app]. now apply replace_fence_marker.
    + rewrite rev_app_distr. cbn [rev app].
      assert (Hin0 : ~ In 96%N a0).
      { intros H. apply Hin, in_or_app. now left. }
      destruct (N.eqb_spec x 10) as [->|Hx].
      * rewrite rev_involutive, <- app_assoc.
        rewrite replace_fence_prefix by auto.
        change ([10%N] ++ lit "```" ++ b) with (lit "\n```" ++ b).
        now rewrite replace_fence_line.
      * rewrite replace_fence_prefix.
        -- now rewrite replace_fence_marker.
        -- exact Hin.
        -- right. left. now rewrite last_last.
  - change (replaceAll re_fence [] (lit "```json\n" ++ a ++ lit "\n```"))
      with (replaceAll re_fence [] (a ++ lit "\n```")).
    rewrite replace_fence_prefix; auto.
    change (replaceAll re_fence [] (lit "\n```")) with (@nil N).
    apply app_nil_r.
  - reflexivity.
Qed.

Lemma fence_removed_anywhere_witness :
  replaceAll re_fence [] (lit "{\'a\':\'x" ++ lit "```json" ++ lit "y\'}")
  = lit "{\'a\':\'x" ++ replaceAll re_fence [] (lit "y\'}")
  /\ replaceAll re_fence [] (lit "{\'a\':\'x" ++ lit "```" ++ lit "y\'}")
     = lit "{\'a\':\'x" ++ replaceAll re_fence [] (lit "y\'}").
Proof.
  assert (Hin : ~ In 96%N (lit "{\'a\':\'x"))
    by (vm_compute; intuition discriminate).
  destruct (proj1 (proj2 (fence_removed_anywhere (lit "{\'a\':\'x")
                            (lit "y\'}") Hin)))
    as (_ & Htag & Hplain); [right; discriminate|].
  split; [exact (Htag eq_refl)|exact (Hplain eq_refl)].
Defined.

(** C8, as it is stated, fails: a fence marker inside the content, here
    inside a JSON string, is removed from the text that is searched and
    parsed. *)
Lemma fence_interior_counterexample :
  cleanContent (lit "{\'a\':\'x```y\'}") = lit "{\'a\':\'xy\'}"
  /\ JSON_parse (lit "{\'a\':\'x```y\'}")
     = Some (JObject [(lit "a", JString (lit "x```y"))])
  /\ JSON_parse (cleanContent (lit "{\'a\':\'x```y\'}"))
     = Some (JObject [(lit "a", JString (lit "xy"))]).
Proof. repeat split. Qed.

(** ** The checklist *)

Section Checklist.
Context {E : Engine}.

Lemma includes_In (found : list jsstring) (x : jsstring) :
  includes found x = true <-> In x found.
Proof.
  unfold includes. rewrite existsb_exists. split.
  - intros [y [Hin Hy]]. apply str_eqb_eq in Hy. now subst.
  - intros Hin. exists x. split; [exact Hin|]. now apply str_eqb_eq.
Qed.

Lemma includes_ext (found found' : list jsstring) (x : jsstring) :
  (forall y, In y found <-> In y found') ->
  includes found x = includes found' x.
Proof.
  intros H. apply eq_true_iff_eq. rewrite !includes_In. apply H.
Qed.

(** C4, as the code has it: the checklist has one item for each
    required name, in their order; an item is marked present exactly
    when some section's title, trimmed and put in lower case, is the
    required name put in lower case: the required name itself is not
    trimmed, so only for a required name without surrounding white
    space is this the comparison of the two names both trimmed and in
    lower case; the
    memo of [App.tsx] runs this check on the parse of the result; the
    mark of a name depends neither on the other required names and
    their order nor on the order and repetition of the section titles;
    and a section titled " title " satisfies the name Title. *)
Theorem checkRequiredSections_present (sections : list section)
    (REQUIRED_SECTIONS : list jsstring) :
  map name (checkRequiredSections sections REQUIRED_SECTIONS)
  = REQUIRED_SECTIONS
  /\ (forall item,
        In item (checkRequiredSections sections REQUIRED_SECTIONS) ->
        (ok item = true <->
         exists s, In s sections
                   /\ toLowerCase (trim (title s)) = toLowerCase (name item)))
  /\ (forall item,
        In item (checkRequiredSections sections REQUIRED_SECTIONS) ->
        trim (name item) = name item ->
        (ok item = true <->
         exists s, In s sections
                   /\ toLowerCase (trim (title s))
                      = toLowerCase (trim (name item))))
  /\ (forall text,
        text <> [] ->
        checklist (Some text) REQUIRED_SECTIONS
        = checkRequiredSections (parseSections text) REQUIRED_SECTIONS)
  /\ (forall others item item',
        In item (checkRequiredSections sections REQUIRED_SECTIONS) ->
        In item' (checkRequiredSections sections others) ->
        name item = name item' -> ok item = ok item')
  /\ (forall sections',
        (forall t, In t (map title sections) <-> In t (map title sections')) ->
        checkRequiredSections sections' REQUIRED_SECTIONS
        = checkRequiredSections sections REQUIRED_SECTIONS)
  /\ checkRequiredSections [{| title := lit " title "; content := [] |}]
       [lit "Title"]
     = [{| name := lit "Title"; ok := true |}].
Proof.
  assert (Hmark : forall item,
             In item (checkRequiredSections sections REQUIRED_SECTIONS) ->
             (ok item = true <->
              exists s, In s sections
                        /\ toLowerCase (trim (title s))
                           = toLowerCase (name item))).
  { unfold checkRequiredSections. intros item Hitem.
    apply in_map_iff in Hitem as [n [<- _]].
    cbn [name ok]. rewrite includes_In, in_map_iff.
    split; intros [s Hs]; exists s; tauto. }
  split; [|split; [exact Hmark|split; [|split]]].
  { unfold checkRequiredSections. rewrite map_map. cbn [name]. apply map_id. }
  { intros item Hitem Htrim. rewrite Htrim. now apply Hmark. }
  { intros text Htext. unfold checklist.
    apply truthy_nonempty in Htext. now rewrite Htext. }
  unfold checkRequiredSections. split; [|split].
  - intros others item item' Hitem Hitem' Hname.
    apply in_map_iff in Hitem as [n [<- _]].
    apply in_map_iff in Hitem' as [n' [<- _]].
    cbn [name ok] in *. now subst.
  - intros sections' Htitles. apply map_ext. intros n. f_equal.
    apply includes_ext. intros y.
    rewrite <- (map_map title (fun t => toLowerCase (trim t)) sections).
    rewrite <- (map_map title (fun t => toLowerCase (trim t)) sections').
    rewrite !in_map_iff. split; intros [t [Ht Hin]]; exists t;
      (split; [exact Ht|now apply Htitles]).
  - cbn [map title].
    rewrite (toLowerCase_basicLatin (lit "Title")) by reflexivity.
    rewrite (toLowerCase_basicLatin (trim (lit " title "))) by reflexivity.
    reflexivity.
Qed.

End Checklist.

(** C4, as it is stated, fails: the section title Title and the required
    name Title followed by a space are equal once both are trimmed and
    put in lower case, yet the item is marked absent, with every
    engine. *)
Lemma checkRequiredSections_name_counterexample :
  (forall E : Engine,
     @checkRequiredSections E [{| title := lit "Title"; content := [] |}]
       [lit "Title "]
     = [{| name := lit "Title "; ok := false |}])
  /\ (forall E : Engine,
        @toLowerCase E (trim (lit "Title"))
        = @toLowerCase E (trim (lit "Title ")))
  /\ @checkRequiredSections sampleEngine
       [{| title := lit "Title"; content := [] |}] [lit "Title "]
     = [{| name := lit "Title "; ok := false |}].
Proof.
  split; [|split; reflexivity].
  intros E. unfold checkRequiredSections. cbn [map title].
  rewrite (toLowerCase_basicLatin (lit "Title ")) by reflexivity.
  rewrite (toLowerCase_basicLatin (trim (lit "Title"))) by reflexivity.
  reflexivity.
Qed.

Lemma checkRequiredSections_present_witness :
  ok {| name := lit "Tags"; ok := true |} = true <->
  exists s,
    In s [ {| title := lit "TAGS "; content := [] |};
           {| title := lit "Tags"; content := lit "B" |} ]
    /\ @toLowerCase sampleEngine (trim (title s))
       = @toLowerCase sampleEngine (name {| name := lit "Tags"; ok := true |}).
Proof.
  refine (proj1 (proj2 (@checkRequiredSections_present sampleEngine
                          [ {| title := lit "TAGS "; content := [] |};
                            {| title := lit "Tags"; content := lit "B" |} ]
                          [lit "Title"; lit "Tags"]))
            {| name := lit "Tags"; ok := true |} _).
  right. left. reflexivity.
Defined.

(** * Further properties of the code *)

(** ** More on the string primitives *)

Lemma trimStart_In (x : N) (s : jsstring) : In x (trimStart s) -> In x s.
Proof.
  induction s as [|c r IH]; simpl; [tauto|].
  destruct (isWhiteSpace c); simpl; tauto.
Qed.

Lemma trim_In (x : N) (s : jsstring) : In x (trim s) -> In x s.
Proof.
  unfold trim, trimEnd. intros H.
  apply in_rev, trimStart_In, in_rev in H. now apply trimStart_In.
Qed.

Lemma trim_length (s : jsstring) : length (trim s) <= length s.
Proof.
  assert (H : forall t, length (trimStart t) <= length t).
  { induction t as [|c r IH]; simpl; [lia|].
    destruct (isWhiteSpace c); simpl; lia. }
  unfold trim, trimEnd. rewrite length_rev.
  pose proof (H (rev (trimStart s))) as H1. rewrite length_rev in H1.
  pose proof (H s). lia.
Qed.

Lemma trim_truthy (s : jsstring) :
  truthy (trim s) = negb (forallb isWhiteSpace s).
Proof.
  destruct (forallb isWhiteSpace s) eqn:E.
  - apply trim_blank in E. now rewrite E.
  - destruct (trim s) eqn:Et; [|reflexivity].
    apply trim_blank in Et. congruence.
Qed.

Lemma indexOf_unit_app (a b : jsstring) (c : N) :
  ~ In c a -> indexOf (a ++ c :: b) [c] = Z.of_nat (length a).
Proof.
  induction a as [|x a IH]; intros H.
  - cbn [app]. rewrite indexOf_unit_cons, N.eqb_refl. reflexivity.
  - cbn [app]. rewrite indexOf_unit_cons.
    destruct (N.eqb_spec x c) as [->|_]; [exfalso; apply H; now left|].
    rewrite IH by (intros Hin; apply H; now right).
    destruct (Z.ltb_spec (Z.of_nat (length a)) 0); cbn [length]; lia.
Qed.

Lemma lastIndexOf_unit_app (a b : jsstring) (c : N) :
  ~ In c b -> lastIndexOf (a ++ c :: b) [c] = Z.of_nat (length a).
Proof.
  intros H.
  assert (Hb : lastIndexOf b [c] = (-1)%Z) by now apply lastIndexOf_unit_absent.
  induction a as [|x a IH]; cbn [app lastIndexOf].
  - rewrite Hb. cbn [startsWith]. now rewrite N.eqb_refl.
  - rewrite IH. destruct (Z.leb_spec 0 (Z.of_nat (length a)));
      cbn [length]; lia.
Qed.

Lemma firstn_skipn_middle {A} (a b c : list A) :
  firstn (length b) (skipn (length a) (a ++ b ++ c)) = b.
Proof.
  rewrite skipn_app, skipn_all, Nat.sub_diag. cbn [skipn app].
  rewrite firstn_app, firstn_all, Nat.sub_diag. cbn [firstn].
  apply app_nil_r.
Qed.

Lemma substring_middle (a b c : jsstring) :
  substring (a ++ b ++ c) (Z.of_nat (length a))
    (Z.of_nat (length a + length b)) = b.
Proof.
  unfold substring, clamp. rewrite !length_app.
  replace (Z.to_nat _) with (length b) by lia.
  replace (Z.to_nat _) with (length a) by lia.
  apply firstn_skipn_middle.
Qed.

Lemma slice_middle (a b c : jsstring) :
  slice (a ++ b ++ c) (Z.of_nat (length a))
    (Z.of_nat (length a + length b)) = b.
Proof.
  unfold slice. rewrite !length_app.
  destruct (Z.ltb_spec (Z.of_nat (length a)) 0); [lia|].
  destruct (Z.ltb_spec (Z.of_nat (length a + length b)) 0); [lia|].
  replace (Z.to_nat (Z.max _ 0)) with (length b) by lia.
  replace (Z.to_nat _) with (length a) by lia.
  apply firstn_skipn_middle.
Qed.

(** The first occurrence of a code unit cuts a text in two. *)
Lemma first_occurrence (c : N) (r : jsstring) :
  In c r -> exists t body, r = t ++ c :: body /\ ~ In c t.
Proof.
  induction r as [|x r IH]; [intros []|].
  destruct (N.eq_dec x c) as [->|Hx].
  - intros _. exists [], r. split; [reflexivity|intros []].
  - intros [H|H]; [congruence|].
    destruct (IH H) as (t & body & -> & Ht).
    exists (x :: t), body. split; [reflexivity|].
    intros [E|E]; [congruence|contradiction].
Qed.

(** ** More on the parser *)

Lemma chunk_heading_line (t body : jsstring) :
  ~ In 10%N t ->
  chunkTitle (lit "### " ++ t ++ lit "\n" ++ body) = trim t
  /\ chunkContent (lit "### " ++ t ++ lit "\n" ++ body) = trim body.
Proof.
  intros Ht. unfold chunkTitle, chunkContent.
  change (lit "\n") with [10%N].
  assert (Hnl : indexOf (lit "### " ++ t ++ [10%N] ++ body) [10%N]
                = Z.of_nat (length (lit "### ") + length t)).
  { rewrite app_assoc, <- length_app. apply indexOf_unit_app.
    intros H. apply in_app_or in H as [H|H]; [|contradiction].
    cbn in H. intuition discriminate. }
  rewrite Hnl.
  destruct (Z.gtb_spec (Z.of_nat (length (lit "### ") + length t)) (-1));
    [|lia].
  split.
  - f_equal. apply (substring_middle (lit "### ") t ([10%N] ++ body)).
  - f_equal. unfold substringFrom.
    replace (lit "### " ++ t ++ [10%N] ++ body)
      with ((lit "### " ++ t ++ [10%N]) ++ body ++ [])
      by (now rewrite app_nil_r, <- !app_assoc).
    replace (Z.of_nat (length (lit "### ") + length t) + 1)%Z
      with (Z.of_nat (length (lit "### " ++ t ++ [10%N])))
      by (rewrite !length_app; cbn [length]; lia).
    replace (Z.of_nat (length ((lit "### " ++ t ++ [10%N]) ++ body ++ [])))
      with (Z.of_nat (length (lit "### " ++ t ++ [10%N]) + length body))
      by (rewrite !length_app; cbn [length]; lia).
    apply substring_middle.
Qed.

Lemma chunk_heading_alone (t : jsstring) :
  ~ In 10%N t ->
  chunkTitle (lit "### " ++ t) = trim t /\ chunkContent (lit "### " ++ t) = [].
Proof.
  intros Ht. unfold chunkTitle, chunkContent.
  change (lit "\n") with [10%N].
  assert (Hnl : indexOf (lit "### " ++ t) [10%N] = (-1)%Z).
  { apply indexOf_unit_absent. intros H.
    apply in_app_or in H as [H|H]; [|contradiction].
    cbn in H. intuition discriminate. }
  rewrite Hnl. cbn [Z.gtb Z.compare]. split; [|reflexivity].
  f_equal.
  replace (lit "### " ++ t) with (lit "### " ++ t ++ []) at 1
    by now rewrite app_nil_r.
  replace (Z.of_nat (length (lit "### " ++ t)))
    with (Z.of_nat (length (lit "### ") + length t))
    by now rewrite length_app.
  apply (substring_middle (lit "### ") t []).
Qed.

(** A chunk that begins with the marker is a heading line alone or a
    heading line, a line feed and a body. *)
Lemma heading_chunk_shape (chunk : jsstring) (idx : nat) :
  startsWith chunk (lit "### ") = true ->
  exists t body,
    ~ In 10%N t
    /\ (forall x, In x t \/ In x body -> In x chunk)
    /\ pushChunk [] chunk idx
       = [{| title := if truthy (trim t) then trim t
                      else lit "Section " ++ natToString (idx + 1);
             content := trim body |}].
Proof.
  intros Hstart. unfold pushChunk. rewrite Hstart.
  apply startsWith_prefix in Hstart as [r ->].
  destruct (in_dec N.eq_dec 10%N r) as [Hin|Hin].
  - destruct (first_occurrence 10 r Hin) as (t & body & -> & Ht).
    exists t, body. split; [exact Ht|]. split.
    + intros x Hx. apply in_or_app. right. apply in_or_app.
      destruct Hx as [Hx|Hx]; [now left|right; now right].
    + destruct (chunk_heading_line t body Ht) as [E1 E2].
      change (lit "\n" ++ body) with (10%N :: body) in E1, E2.
      rewrite E1, E2. reflexivity.
  - exists r, []. split; [exact Hin|]. split.
    + intros x [Hx|[]]. apply in_or_app. now right.
    + destruct (chunk_heading_alone r Hin) as [-> ->]. reflexivity.
Qed.

Lemma split_blank (s : jsstring) :
  forallb isWhiteSpace s = true -> split_headingBreak s = [s].
Proof.
  induction s as [|c r IH]; [reflexivity|].
  cbn [forallb]. intros H. apply andb_true_iff in H as [_ Hr].
  cbn [split_headingBreak].
  assert (Hb : re_headingBreak (c :: r) = false).
  { unfold re_headingBreak.
    destruct r as [|h1 [|h2 [|h3 [|w r]]]]; try reflexivity.
    cbn [forallb] in Hr. apply andb_true_iff in Hr as [H1 _].
    destruct (N.eqb_spec h1 35) as [->|_]; [discriminate|].
    now rewrite andb_false_r. }
  rewrite Hb, (IH Hr). reflexivity.
Qed.

Lemma replace_crlf_free_upto (n : nat) (s : jsstring) :
  length s <= n -> ~ In 13%N (replaceAll re_crlf (lit "\n") s).
Proof.
  revert s. induction n as [|n IH]; intros [|c r] Hlen; cbn [length] in Hlen;
    try (intros []); [lia|].
  rewrite replace_crlf_cons. destruct (N.eqb_spec c 13) as [->|Hc].
  - intros [H|H]; [discriminate|]. revert H.
    destruct r as [|d r]; [intros []|].
    destruct (d =? 10)%N; apply IH; cbn [length] in *; lia.
  - intros [H|H]; [congruence|]. revert H. apply IH. lia.
Qed.

Lemma replace_crlf_free (s : jsstring) :
  ~ In 13%N (replaceAll re_crlf (lit "\n") s).
Proof. exact (replace_crlf_free_upto (length s) s (Nat.le_refl _)). Qed.

Lemma replace_crlf_fixed (s : jsstring) :
  ~ In 13%N s -> replaceAll re_crlf (lit "\n") s = s.
Proof.
  induction s as [|c r IH]; [reflexivity|]. intros H.
  rewrite replace_crlf_cons.
  destruct (N.eqb_spec c 13) as [->|_]; [exfalso; apply H; now left|].
  rewrite IH; [reflexivity|]. intros Hin. apply H. now right.
Qed.

Lemma join_In (chunks : list jsstring) (chunk : jsstring) (x : N) :
  In chunk chunks -> In x chunk -> In x (join chunks).
Proof.
  induction chunks as [|c chunks IH]; [intros []|].
  destruct chunks as [|c' chunks].
  - intros [<-|[]] Hx. exact Hx.
  - rewrite join_cons by discriminate. intros [<-|Hin] Hx.
    + apply in_or_app. now left.
    + apply in_or_app. right. right. now apply IH.
Qed.

Lemma forEach_pushChunk_In (parts : list jsstring) (idx : nat) (s : section) :
  In s (forEach pushChunk parts idx []) ->
  exists chunk i, In chunk parts /\ In s (pushChunk [] chunk i).
Proof.
  revert idx. induction parts as [|c parts IH]; intros idx; [intros []|].
  rewrite forEach_pushChunk_cons. intros H. apply in_app_or in H as [H|H].
  - exists c, idx. split; [now left|exact H].
  - destruct (IH _ H) as (chunk & i & Hin & Hs).
    exists chunk, i. split; [now right|exact Hs].
Qed.

Lemma forEach_pushChunk_count (parts : list jsstring) (idx : nat) :
  Forall (fun c => trim c <> []) parts ->
  length (forEach pushChunk parts idx []) = length parts.
Proof.
  revert idx. induction parts as [|c parts IH]; intros idx H; [reflexivity|].
  inversion H as [|? ? Hc Hparts]; subst.
  rewrite forEach_pushChunk_cons, length_app, (IH _ Hparts).
  destruct (pushChunk_nonblank c idx Hc) as [s ->]. reflexivity.
Qed.

Lemma placeholder_units (n : nat) (x : N) :
  In x (lit "Section " ++ natToString n) -> x <> 10%N /\ x <> 13%N.
Proof.
  intros H. apply in_app_or in H as [H|H].
  - cbn in H. intuition (subst; discriminate).
  - pose proof (natToString_digits n) as Hd.
    rewrite forallb_forall in Hd. specialize (Hd x H).
    unfold isDigit in Hd. apply andb_true_iff in Hd as [H1 _].
    apply N.leb_le in H1. lia.
Qed.

Lemma pushChunk_units (chunk : jsstring) (idx : nat) (s : section) :
  In s (pushChunk [] chunk idx) ->
  ~ In 10%N (title s)
  /\ (forall x, In x (title s) -> x <> 13%N \/ In x chunk)
  /\ (forall x, In x (content s) -> In x chunk).
Proof.
  destruct (startsWith chunk (lit "### ")) eqn:Hstart.
  - destruct (heading_chunk_shape chunk idx Hstart)
      as (t & body & Ht & Hsub & ->).
    intros [<-|[]]. cbn [title content].
    destruct (truthy (trim t)).
    + split; [|split].
      * intros H. apply Ht. now apply trim_In.
      * intros x Hx. right. apply Hsub. left. now apply trim_In.
      * intros x Hx. apply Hsub. right. now apply trim_In.
    + split; [|split].
      * intros H. now apply placeholder_units in H as [H _].
      * intros x Hx. left. now apply placeholder_units in Hx as [_ Hx].
      * intros x Hx. apply Hsub. right. now apply trim_In.
  - unfold pushChunk. rewrite Hstart.
    destruct (truthy (trim chunk)); [|intros []].
    intros [<-|[]]. cbn [title content]. split; [|split].
    + cbn. intuition discriminate.
    + intros x Hx. left. cbn in Hx. intuition (subst; discriminate).
    + intros x Hx. now apply trim_In.
Qed.

(** X1: line endings do not matter: a text parses as its copy in which
    every CR LF and every lone CR is a line feed. *)
Theorem parseSections_line_endings (result : jsstring) :
  parseSections (replaceAll re_crlf (lit "\n") result) = parseSections result.
Proof.
  unfold parseSections.
  rewrite !trim_truthy, replace_crlf_space.
  now rewrite (replace_crlf_fixed _ (replace_crlf_free result)).
Qed.

(** X2: the parse has one section for each chunk of the split, but for a
    blank first chunk: every line that begins with three hashes and a
    white space starts a section, and nothing else is dropped. *)
Theorem parseSections_count (result : jsstring) :
  let parts := split_headingBreak (replaceAll re_crlf (lit "\n") result) in
  length (parseSections result) = length parts - droppedBefore parts.
Proof.
  intros parts.
  destruct (trim result) as [|c r] eqn:E.
  - unfold parseSections. rewrite E. cbn [truthy negb length].
    apply trim_blank in E. rewrite <- replace_crlf_space in E.
    subst parts. rewrite (split_blank _ E). cbn [droppedBefore length].
    apply trim_blank in E. now rewrite E.
  - rewrite parseSections_nonblank by congruence. fold parts.
    pose proof (split_tail_hashes (replaceAll re_crlf (lit "\n") result))
      as Htail.
    fold parts in Htail.
    destruct parts as [|first rest] eqn:Eparts.
    { now apply split_nonempty in Eparts. }
    cbn [tl] in Htail.
    rewrite forEach_pushChunk_cons, length_app, forEach_pushChunk_count
      by (revert Htail; apply Forall_impl; exact hashes_nonblank).
    cbn [droppedBefore length].
    destruct (trim first) as [|c' r'] eqn:Ef.
    + rewrite (pushChunk_blank [] first 0 Ef). cbn [truthy length]. lia.
    + destruct (pushChunk_nonblank first 0) as [s ->]; [congruence|].
      cbn [truthy length]. lia.
Qed.

(** X3: every title of a parse is a single line, and no carriage return
    survives in a title or in a content. *)
Theorem parseSections_single_line_titles (result : jsstring) (s : section) :
  In s (parseSections result) ->
  ~ In 10%N (title s) /\ ~ In 13%N (title s) /\ ~ In 13%N (content s).
Proof.
  unfold parseSections.
  destruct (negb (truthy (trim result))); [intros []|].
  intros H. apply filter_In in H as [H _].
  apply forEach_pushChunk_In in H as (chunk & i & Hchunk & Hs).
  assert (Hfree : ~ In 13%N chunk).
  { intros Hin. apply (replace_crlf_free result).
    rewrite <- (join_split (replaceAll re_crlf (lit "\n") result)).
    exact (join_In _ _ _ Hchunk Hin). }
  destruct (pushChunk_units chunk i s Hs) as (Hlf & Htitle & Hcontent).
  split; [exact Hlf|]. split.
  - intros Hin. destruct (Htitle _ Hin) as [?|?]; auto.
  - intros Hin. apply Hfree. now apply Hcontent.
Qed.

Lemma parseSections_single_line_titles_witness :
  ~ In 10%N (lit "Tags") /\ ~ In 13%N (lit "Tags")
  /\ ~ In 13%N (lit "a\nb").
Proof.
  exact (parseSections_single_line_titles (lit "### Tags \r\na\rb")
           {| title := lit "Tags"; content := lit "a\nb" |}
           (or_introl eq_refl)).
Defined.

(** X4: a chunk made of the marker, a first line and a body gives the
    trimmed first line as title, or the placeholder when the line is
    blank, and the trimmed body as content. *)
Theorem pushChunk_heading_line (sections : list section) (t body : jsstring)
    (idx : nat) :
  ~ In 10%N t ->
  pushChunk sections (lit "### " ++ t ++ lit "\n" ++ body) idx
  = sections
    ++ [{| title := if truthy (trim t) then trim t
                    else lit "Section " ++ natToString (idx + 1);
           content := trim body |}].
Proof.
  intros Ht. rewrite pushChunk_app. f_equal.
  destruct (chunk_heading_line t body Ht) as [E1 E2].
  unfold pushChunk.
  change (startsWith (lit "### " ++ t ++ lit "\n" ++ body) (lit "### "))
    with true.
  cbv iota. now rewrite E1, E2.
Qed.

Lemma pushChunk_heading_line_witness :
  pushChunk [] (lit "### " ++ lit " Tags " ++ lit "\n" ++ lit " a\n b \n") 3
  = [] ++ [{| title := if truthy (trim (lit " Tags "))
                       then trim (lit " Tags ")
                       else lit "Section " ++ natToString (3 + 1);
              content := trim (lit " a\n b \n") |}].
Proof.
  refine (pushChunk_heading_line [] (lit " Tags ") (lit " a\n b \n") 3 _).
  cbn. intuition discriminate.
Defined.

(** ** More on the metadata check and the export *)

Lemma requireFields_passed (members : list (jsstring * json))
    (ks : list jsstring) :
  requireFields ks (JObject members) = inr tt ->
  forall k, In k ks -> lookup members k <> None.
Proof.
  induction ks as [|k ks IH]; [intros _ k []|].
  cbn [requireFields in_operator].
  destruct (lookup members k) eqn:E; [|discriminate].
  intros H k' [<-|Hin]; [congruence|now apply IH].
Qed.

Lemma found_In (s : jsstring) (c : N) :
  (indexOf s [c] =? -1)%Z = false -> In c s.
Proof.
  intros H. destruct (in_dec N.eq_dec c s) as [Hin|Hin]; [exact Hin|].
  apply indexOf_unit_absent in Hin. rewrite Hin in H. discriminate.
Qed.

Lemma found_last_In (s : jsstring) (c : N) :
  (lastIndexOf s [c] =? -1)%Z = false -> In c s.
Proof.
  intros H. destruct (in_dec N.eq_dec c s) as [Hin|Hin]; [exact Hin|].
  apply lastIndexOf_unit_absent in Hin. rewrite Hin in H. discriminate.
Qed.

(** The text between the braces, when both are there, parses to an
    object or not at all. *)
Lemma braces_parse_object (clean : jsstring) (data : json) :
  (indexOf clean (lit "{") =? -1)%Z = false ->
  JSON_parse (slice clean (indexOf clean (lit "{"))
                (lastIndexOf clean (lit "}") + 1)) = Some data ->
  exists members, data = JObject members.
Proof.
  change (lit "{") with [123%N]. intros Hopen Hdata.
  assert (Hfound : indexOf clean [123%N] <> (-1)%Z).
  { intros H. rewrite H in Hopen. discriminate. }
  destruct (slice_from_found clean 123 (lastIndexOf clean (lit "}") + 1)
              Hfound) as [Hraw|[r Hraw]]; rewrite Hraw in Hdata.
  - discriminate.
  - exact (JSON_parse_brace _ _ Hdata).
Qed.

(** A passed check: the braces are there, the text between them is an
    object with the six fields and the two language codes. *)
Lemma metadataCheck_passed (content : jsstring) :
  metadataCheck content = inr tt ->
  let clean := cleanContent content in
  (indexOf clean (lit "{") =? -1)%Z || (lastIndexOf clean (lit "}") =? -1)%Z
  = false
  /\ exists members,
       JSON_parse (slice clean (indexOf clean (lit "{"))
                     (lastIndexOf clean (lit "}") + 1))
       = Some (JObject members)
       /\ (forall k, In k required -> lookup members k <> None)
       /\ lookup members (lit "defaultAudioLanguage")
          = Some (JString (lit "en-US"))
       /\ lookup members (lit "defaultLanguage") = Some (JString (lit "en")).
Proof.
  intros H clean. unfold metadataCheck in H. cbv zeta in H. fold clean in H.
  destruct ((indexOf clean (lit "{") =? -1)%Z
            || (lastIndexOf clean (lit "}") =? -1)%Z) eqn:Hb; [discriminate|].
  split; [reflexivity|].
  apply orb_false_iff in Hb as [Hopen _].
  destruct (JSON_parse _) as [data|] eqn:Hdata; [|discriminate].
  destruct (braces_parse_object clean data Hopen Hdata) as [members ->].
  exists members. split; [reflexivity|].
  destruct (requireFields required (JObject members)) as [e|[]] eqn:Hreq;
    [discriminate|].
  split; [exact (requireFields_passed _ _ Hreq)|].
  cbn [getProperty] in H.
  destruct (strictNotEqual (lookup members (lit "defaultAudioLanguage")) _)
    eqn:Haudio; [discriminate|].
  destruct (strictNotEqual (lookup members (lit "defaultLanguage")) _)
    eqn:Hlang; [discriminate|].
  apply strictNotEqual_false in Haudio, Hlang. now split.
Qed.

Lemma stringify_object (E : Engine) (members : list (jsstring * json)) :
  exists r, JSON_stringify (JObject members) = 123%N :: r.
Proof.
  unfold JSON_stringify. cbn [serialize]. unfold bracketed.
  match goal with |- context [match ?l with [] => _ | _ :: _ => _ end] =>
    destruct l end; eexists; reflexivity.
Qed.

Lemma find_first {A} (f : A -> bool) (pre : list A) (x : A) (post : list A) :
  (forall y, In y pre -> f y = false) -> f x = true ->
  find f (pre ++ x :: post) = Some x.
Proof.
  intros Hpre Hx. induction pre as [|y pre IH]; cbn [app find].
  - now rewrite Hx.
  - rewrite (Hpre y (or_introl eq_refl)). apply IH.
    intros z Hz. apply Hpre. now right.
Qed.

Lemma find_none {A} (f : A -> bool) (l : list A) :
  (forall y, In y l -> f y = false) -> find f l = None.
Proof.
  induction l as [|y l IH]; intros H; cbn [find]; [reflexivity|].
  rewrite (H y (or_introl eq_refl)). apply IH.
  intros z Hz. apply H. now right.
Qed.

Lemma replace_fence_fixed (a : jsstring) :
  ~ In 96%N a -> replaceAll re_fence [] a = a.
Proof.
  intros H. rewrite <- (app_nil_r a) at 1.
  rewrite replace_fence_prefix.
  - apply app_nil_r.
  - exact H.
  - right. right. reflexivity.
Qed.

Section MetadataExport.
Context {E : Engine}.

Lemma validateMetadata_None (content : jsstring) :
  validateMetadata content = None -> metadataCheck content = inr tt.
Proof.
  unfold validateMetadata.
  destruct (metadataCheck content) as [e|[]]; [discriminate|reflexivity].
Qed.

Lemma extractMetadataJson_first (sections : list section) (meta : section) :
  find isMeta sections = Some meta ->
  extractMetadataJson sections = extractMetadataJson [meta].
Proof.
  intros H. unfold extractMetadataJson. rewrite H. cbn [find].
  apply find_some in H as [_ Hmeta]. now rewrite Hmeta.
Qed.

Lemma extractMetadataJson_object (sections : list section) (raw : jsstring) :
  extractMetadataJson sections = Some raw -> exists r, raw = 123%N :: r.
Proof.
  unfold extractMetadataJson.
  destruct (find isMeta sections) as [meta|]; [|discriminate].
  set (clean := cleanContent (content meta)).
  destruct ((indexOf clean (lit "{") =? -1)%Z
            || (lastIndexOf clean (lit "}") =? -1)%Z) eqn:Hb; [discriminate|].
  apply orb_false_iff in Hb as [Hopen _].
  destruct (JSON_parse _) as [data|] eqn:Hdata; [|discriminate].
  destruct (braces_parse_object clean data Hopen Hdata) as [members ->].
  intros H. injection H as <-. apply stringify_object.
Qed.

(** X5: a passed check is sound: the cleaned content has both braces and
    the text between them parses to an object that has the six required
    fields, with defaultAudioLanguage the string en-US and
    defaultLanguage the string en. *)
Theorem validateMetadata_passed_fields (content : jsstring) :
  validateMetadata content = None ->
  let clean := cleanContent content in
  In 123%N clean /\ In 125%N clean
  /\ exists members,
       JSON_parse (slice clean (indexOf clean (lit "{"))
                     (lastIndexOf clean (lit "}") + 1))
       = Some (JObject members)
       /\ (forall k, In k required -> lookup members k <> None)
       /\ lookup members (lit "defaultAudioLanguage")
          = Some (JString (lit "en-US"))
       /\ lookup members (lit "defaultLanguage") = Some (JString (lit "en")).
Proof.
  intros H clean. apply validateMetadata_None, metadataCheck_passed in H.
  fold clean in H. destruct H as [Hb Hrest].
  apply orb_false_iff in Hb as [Hopen Hclose].
  split; [exact (found_In clean 123 Hopen)|].
  split; [exact (found_last_In clean 125 Hclose)|exact Hrest].
Qed.

(** X6: when the first section titled metadata json passes its check,
    there is an export: it is the object that the text between the
    braces of that section's cleaned content parses to, printed by
    [JSON.stringify]; the download offers it and its button is
    enabled. *)
Theorem valid_metadata_exported (sections : list section) (meta : section) :
  find isMeta sections = Some meta ->
  metaError meta = None ->
  let clean := cleanContent (content meta) in
  exists members,
    JSON_parse (slice clean (indexOf clean (lit "{"))
                  (lastIndexOf clean (lit "}") + 1))
    = Some (JObject members)
    /\ extractMetadataJson sections = Some (JSON_stringify (JObject members))
    /\ downloadJson sections = Some (JSON_stringify (JObject members))
    /\ downloadJsonDisabled sections = false
    /\ (forall k, In k required -> lookup members k <> None).
Proof.
  intros Hfind Herr clean.
  assert (Hmeta : isMeta meta = true) by (apply find_some in Hfind; tauto).
  unfold metaError in Herr. rewrite Hmeta in Herr.
  apply validateMetadata_None, metadataCheck_passed in Herr.
  fold clean in Herr.
  destruct Herr as (Hb & members & Hparse & Hfields & _).
  exists members. split; [exact Hparse|].
  assert (Hex : extractMetadataJson sections
                = Some (JSON_stringify (JObject members))).
  { unfold extractMetadataJson. rewrite Hfind. cbv zeta. fold clean.
    now rewrite Hb, Hparse. }
  unfold downloadJson, downloadJsonDisabled. rewrite Hex.
  destruct (stringify_object E members) as [r ->]. auto.
Qed.

(** X7: the export reads the first section titled metadata json and no
    other: sections before it that are not so titled and every section
    after it change nothing, and without such a section there is no
    export. *)
Theorem extractMetadataJson_first_only (pre : list section) (meta : section)
    (post : list section) :
  (forall s, In s pre -> isMeta s = false) ->
  (isMeta meta = true ->
   extractMetadataJson (pre ++ meta :: post) = extractMetadataJson [meta])
  /\ (isMeta meta = false -> (forall s, In s post -> isMeta s = false) ->
      extractMetadataJson (pre ++ meta :: post) = None).
Proof.
  intros Hpre. split.
  - intros Hmeta. apply extractMetadataJson_first.
    now apply find_first.
  - intros Hmeta Hpost. unfold extractMetadataJson.
    rewrite find_none; [reflexivity|].
    intros s Hs. apply in_app_or in Hs as [Hs|[<-|Hs]]; auto.
Qed.

(** X8: an export is never empty: it is a text that opens with a brace;
    the download button is enabled exactly when there is an export, and
    the file offered is that export. *)
Theorem export_enables_download (sections : list section) :
  match extractMetadataJson sections with
  | Some raw =>
      (exists r, raw = 123%N :: r)
      /\ downloadJsonDisabled sections = false
      /\ downloadJson sections = Some raw
  | None =>
      downloadJsonDisabled sections = true /\ downloadJson sections = None
  end.
Proof.
  unfold downloadJson, downloadJsonDisabled.
  destruct (extractMetadataJson sections) as [raw|] eqn:H; [|now split].
  destruct (extractMetadataJson_object _ _ H) as [r ->].
  split; [now exists r|now split].
Qed.

(** X9: what stands before the first opening brace and after the last
    closing brace of the cleaned content does not matter: two contents
    whose cleaned texts have the same span between these braces get the
    same verdict. *)
Theorem validateMetadata_span (content content' : jsstring)
    (pre post pre' post' body : jsstring) :
  cleanContent content = pre ++ (123%N :: body ++ [125%N]) ++ post ->
  cleanContent content' = pre' ++ (123%N :: body ++ [125%N]) ++ post' ->
  ~ In 123%N pre -> ~ In 123%N pre' ->
  ~ In 125%N post -> ~ In 125%N post' ->
  validateMetadata content = validateMetadata content'.
Proof.
  assert (Hspan : forall c p q,
             cleanContent c = p ++ (123%N :: body ++ [125%N]) ++ q ->
             ~ In 123%N p -> ~ In 125%N q ->
             metadataCheck c
             = match JSON_parse (123%N :: body ++ [125%N]) with
               | None => inl (SyntaxError (123%N :: body ++ [125%N]))
               | Some data =>
                   match requireFields required data with
                   | inl e => inl e
                   | inr _ =>
                       if strictNotEqual
                            (getProperty data (lit "defaultAudioLanguage"))
                            (lit "en-US")
                       then inl (Error
                                   (lit "defaultAudioLanguage must be 'en-US'"))
                       else if strictNotEqual
                                 (getProperty data (lit "defaultLanguage"))
                                 (lit "en")
                       then inl (Error (lit "defaultLanguage must be 'en'"))
                       else inr tt
                   end
               end).
  { intros c p q Hc Hp Hq.
    assert (Hopen : indexOf (cleanContent c) (lit "{") = Z.of_nat (length p)).
    { rewrite Hc. cbn [app]. now apply indexOf_unit_app. }
    assert (Hclose : lastIndexOf (cleanContent c) (lit "}")
                     = Z.of_nat (length p + length (123%N :: body))).
    { rewrite Hc.
      replace (p ++ (123%N :: body ++ [125%N]) ++ q)
        with ((p ++ 123%N :: body) ++ 125%N :: q)
        by (cbn [app]; now rewrite <- !app_assoc).
      rewrite <- length_app. now apply lastIndexOf_unit_app. }
    unfold metadataCheck. rewrite Hopen, Hclose.
    destruct (Z.eqb_spec (Z.of_nat (length p)) (-1)); [lia|].
    destruct (Z.eqb_spec (Z.of_nat (length p + length (123%N :: body))) (-1));
      [lia|].
    cbn [orb]. cbv zeta. rewrite Hc.
    replace (Z.of_nat (length p + length (123%N :: body)) + 1)%Z
      with (Z.of_nat (length p + length (123%N :: body ++ [125%N])))
      by (cbn [length]; rewrite length_app; cbn [length]; lia).
    now rewrite slice_middle. }
  intros Hc Hc' Hp Hp' Hq Hq'.
  unfold validateMetadata.
  now rewrite (Hspan _ _ _ Hc Hp Hq), (Hspan _ _ _ Hc' Hp' Hq').
Qed.

(** X10: a fence around a content without backticks does not change the
    verdict, with the json tag on the opening fence or without it. *)
Theorem validateMetadata_fenced (a : jsstring) :
  ~ In 96%N a ->
  validateMetadata (lit "```json\n" ++ a ++ lit "\n```") = validateMetadata a
  /\ validateMetadata (lit "```\n" ++ a ++ lit "\n```") = validateMetadata a.
Proof.
  intros Ha.
  assert (Htail : replaceAll re_fence [] (a ++ lit "\n```") = a).
  { rewrite replace_fence_prefix; auto.
    change (replaceAll re_fence [] (lit "\n```")) with (@nil N).
    apply app_nil_r. }
  assert (H1 : cleanContent (lit "```json\n" ++ a ++ lit "\n```")
               = cleanContent a).
  { unfold cleanContent.
    change (replaceAll re_fence [] (lit "```json\n" ++ a ++ lit "\n```"))
      with (replaceAll re_fence [] (a ++ lit "\n```")).
    now rewrite Htail, replace_fence_fixed. }
  assert (H2 : cleanContent (lit "```\n" ++ a ++ lit "\n```")
               = cleanContent a).
  { unfold cleanContent.
    change (replaceAll re_fence [] (lit "```\n" ++ a ++ lit "\n```"))
      with (replaceAll re_fence [] ((10%N :: a) ++ lit "\n```")).
    rewrite replace_fence_prefix.
    - change (replaceAll re_fence [] (lit "\n```")) with (@nil N).
      rewrite app_nil_r, replace_fence_fixed by exact Ha.
      unfold trim. reflexivity.
    - intros [H|H]; [discriminate|contradiction].
    - right. right. reflexivity. }
  unfold validateMetadata, metadataCheck. now rewrite H1, H2.
Qed.

End MetadataExport.

Lemma validateMetadata_passed_fields_witness :
  lookup [ (lit "title", JString (lit "x"));
           (lit "description", JString (lit "y"));
           (lit "tags", JArray [JString (lit "a")]);
           (lit "defaultLanguage", JString (lit "en"));
           (lit "defaultAudioLanguage", JString (lit "en-US"));
           (lit "categoryId", JString (lit "27")) ]
    (lit "defaultLanguage")
  = Some (JString (lit "en")).
Proof.
  destruct (@validateMetadata_passed_fields sampleEngine sampleContent eq_refl)
    as (_ & _ & members & Hparse & _ & _ & Hlang).
  vm_compute in Hparse. injection Hparse as <-. exact Hlang.
Defined.

Lemma valid_metadata_exported_witness :
  @downloadJsonDisabled sampleEngine
    [ {| title := lit "Title"; content := lit "x" |};
      {| title := lit "Metadata JSON"; content := sampleContent |} ]
  = false.
Proof.
  destruct (@valid_metadata_exported sampleEngine
              [ {| title := lit "Title"; content := lit "x" |};
                {| title := lit "Metadata JSON"; content := sampleContent |} ]
              {| title := lit "Metadata JSON"; content := sampleContent |}
              eq_refl eq_refl) as (members & _ & _ & _ & H & _).
  exact H.
Defined.

Lemma extractMetadataJson_first_only_witness :
  @extractMetadataJson sampleEngine
    ([ {| title := lit "Title"; content := lit "x" |} ]
     ++ {| title := lit "METADATA JSON"; content := lit "{oops" |}
     :: [ {| title := lit "Metadata JSON"; content := sampleContent |} ])
  = @extractMetadataJson sampleEngine
      [ {| title := lit "METADATA JSON"; content := lit "{oops" |} ].
Proof.
  refine (proj1 (@extractMetadataJson_first_only sampleEngine
                   [ {| title := lit "Title"; content := lit "x" |} ]
                   {| title := lit "METADATA JSON"; content := lit "{oops" |}
                   [ {| title := lit "Metadata JSON";
                        content := sampleContent |} ] _) eq_refl).
  intros s [<-|[]]. reflexivity.
Defined.

Lemma validateMetadata_span_witness :
  @validateMetadata sampleEngine (lit "Here it is: {\'title\':1} (draft)")
  = @validateMetadata sampleEngine (lit "{\'title\':1}").
Proof.
  refine (@validateMetadata_span sampleEngine
            (lit "Here it is: {\'title\':1} (draft)") (lit "{\'title\':1}")
            (lit "Here it is: ") (lit " (draft)") [] [] (lit "\'title\':1")
            eq_refl eq_refl _ _ _ _);
    cbn; intuition discriminate.
Defined.

Lemma validateMetadata_fenced_witness :
  @validateMetadata sampleEngine
    (lit "```json\n" ++ lit "{\'title\':1}" ++ lit "\n```")
  = @validateMetadata sampleEngine (lit "{\'title\':1}").
Proof.
  refine (proj1 (@validateMetadata_fenced sampleEngine (lit "{\'title\':1}") _)).
  cbn. intuition discriminate.
Defined.

(** ** The cards *)

Lemma natToString_inj (i j : nat) : natToString i = natToString j -> i = j.
Proof.
  unfold natToString. intros H.
  assert (Hinj : forall l l', map N_of_ascii l = map N_of_ascii l' -> l = l').
  { induction l as [|a l IH]; intros [|a' l'] Hl; try discriminate;
      [reflexivity|].
    cbn [map] in Hl. injection Hl as Ha Hl.
    apply (f_equal ascii_of_N) in Ha. rewrite !ascii_N_embedding in Ha.
    f_equal; [exact Ha|now apply IH]. }
  apply Hinj in H.
  apply (f_equal string_of_list_ascii) in H.
  rewrite !string_of_list_ascii_of_string in H.
  assert (Hnil : forall n, Nat.to_uint n <> Decimal.Nil).
  { intros n. rewrite <- (DecimalNat.Unsigned.of_to n) at 1.
    rewrite DecimalNat.Unsigned.to_of. unfold Decimal.unorm.
    destruct (Decimal.nzhead (Nat.to_uint n)); discriminate. }
  apply (f_equal NilZero.uint_of_string) in H.
  rewrite !NilZero.usu in H by apply Hnil.
  injection H as H. now apply DecimalNat.Unsigned.to_uint_inj.
Qed.

Lemma digits_before_dash (x y p q : jsstring) :
  forallb isDigit x = true -> forallb isDigit y = true ->
  x ++ 45%N :: p = y ++ 45%N :: q -> x = y.
Proof.
  revert y. induction x as [|c x IH]; intros [|d y] Hx Hy H; cbn in *.
  - reflexivity.
  - injection H as <- _. discriminate.
  - injection H as -> _. discriminate.
  - injection H as -> H.
    apply andb_true_iff in Hx as [_ Hx]. apply andb_true_iff in Hy as [_ Hy].
    f_equal. now apply IH.
Qed.

Lemma key_index (t t' : jsstring) (i j : nat) :
  t ++ lit "-" ++ natToString i = t' ++ lit "-" ++ natToString j -> i = j.
Proof.
  intros H. apply (f_equal (@rev N)) in H.
  change (lit "-") with [45%N] in H. cbn [app] in H.
  rewrite !rev_app_distr in H. cbn [rev] in H. rewrite <- !app_assoc in H.
  cbn [app] in H.
  apply digits_before_dash in H;
    try (rewrite forallb_rev; apply natToString_digits).
  apply (f_equal (@rev N)) in H. rewrite !rev_involutive in H.
  now apply natToString_inj.
Qed.

Lemma cardKeys_from_index (i : nat) (sections : list section) (k : jsstring) :
  In k (cardKeys_from i sections) ->
  exists t j, i <= j /\ k = t ++ lit "-" ++ natToString j.
Proof.
  revert i. induction sections as [|s rest IH]; intros i; [intros []|].
  cbn [cardKeys_from]. intros [<-|H].
  - exists (title s), i. split; [lia|reflexivity].
  - destruct (IH _ H) as (t & j & Hj & ->). exists t, j. split; [lia|reflexivity].
Qed.

(** X11: the keys of the cards are pairwise distinct, whatever the
    titles are. *)
Theorem cardKeys_distinct (sections : list section) : NoDup (cardKeys sections).
Proof.
  unfold cardKeys. generalize 0.
  induction sections as [|s rest IH]; intros i; cbn [cardKeys_from].
  - constructor.
  - constructor; [|apply IH].
    intros H. apply cardKeys_from_index in H as (t & j & Hj & H).
    apply key_index in H. lia.
Qed.

(** ** The form *)

Section Form.
Context {E : Engine}.

Lemma parseSections_wf (text : jsstring) (s : section) :
  In s (parseSections text) -> trim (title s) = title s
                               /\ trim (content s) = content s.
Proof.
  unfold parseSections.
  destruct (negb (truthy (trim text))); [intros []|].
  intros H. apply filter_In in H as [H _].
  apply forEach_pushChunk_wf in H as (_ & Ht & Hc).
  split; now apply trimmed_trim.
Qed.

Lemma find_item (found : list jsstring) (R : list jsstring) (n : jsstring) :
  In n R ->
  find (fun c => str_eqb (name c) n)
    (map (fun n' => {| name := n'; ok := includes found (toLowerCase n') |}) R)
  = Some {| name := n; ok := includes found (toLowerCase n) |}.
Proof.
  induction R as [|n' R IH]; [intros []|].
  cbn [map find name]. destruct (str_eqb n' n) eqn:E'.
  - apply str_eqb_eq in E'. now subst.
  - intros [->|H]; [|now apply IH].
    assert (str_eqb n n = true) by now apply str_eqb_eq. congruence.
Qed.

(** X12: the dot of a required section is gray while there is no
    result; with a result that is not empty it is green when some
    section of the parse has the required name as its title, letter
    case apart, and red otherwise; with the empty string as result it
    is green for every name. *)
Theorem requiredDot_colors (REQUIRED_SECTIONS : list jsstring) (n : jsstring) :
  requiredDot None REQUIRED_SECTIONS n = Gray
  /\ requiredDot (Some []) REQUIRED_SECTIONS n = Green
  /\ (forall text,
        text <> [] -> In n REQUIRED_SECTIONS ->
        (requiredDot (Some text) REQUIRED_SECTIONS n = Green <->
         exists s, In s (parseSections text)
                   /\ toLowerCase (title s) = toLowerCase n)
        /\ (requiredDot (Some text) REQUIRED_SECTIONS n = Green
            \/ requiredDot (Some text) REQUIRED_SECTIONS n = Red)).
Proof.
  split; [reflexivity|]. split; [reflexivity|].
  intros text Htext Hn. unfold requiredDot, checklist.
  apply truthy_nonempty in Htext. rewrite Htext. cbn [negb].
  unfold checkRequiredSections. rewrite (find_item _ _ _ Hn). cbn [ok].
  destruct (includes _ (toLowerCase n)) eqn:Hi.
  - split; [|now left]. split; [intros _|reflexivity].
    apply includes_In, in_map_iff in Hi as (s & Hs & Hin).
    exists s. split; [exact Hin|].
    now rewrite (proj1 (parseSections_wf _ _ Hin)) in Hs.
  - split; [|now right]. split; [discriminate|].
    intros (s & Hin & Hs). exfalso.
    assert (Hc : includes
                   (map (fun s => toLowerCase (trim (title s)))
                      (parseSections text)) (toLowerCase n) = true).
    { apply includes_In, in_map_iff. exists s. split; [|exact Hin].
      now rewrite (proj1 (parseSections_wf _ _ Hin)). }
    congruence.
Qed.

(** X13: the title warning of a card of the parse: it shows exactly for
    a section titled title, letter case apart, whose content has more
    than 70 code units; on any section, it shows only if the content
    has more than 70 code units. *)
Theorem titleWarn_parsed (text : jsstring) (s : section) :
  (In s (parseSections text) ->
   titleWarn s = isTitle s && (70 <? length (content s)))
  /\ (titleWarn s = true -> isTitle s = true /\ 70 < length (content s)).
Proof.
  unfold titleWarn, titleLength. split.
  - intros H. rewrite (proj2 (parseSections_wf _ _ H)).
    now destruct (isTitle s).
  - intros H. apply andb_true_iff in H as [Ht Hl]. rewrite Ht in Hl.
    split; [exact Ht|]. apply Nat.ltb_lt in Hl.
    pose proof (trim_length (content s)). lia.
Qed.

End Form.

Lemma requiredDot_colors_witness :
  @requiredDot sampleEngine (Some (lit "### TAGS\nB")) [lit "Title"; lit "Tags"]
    (lit "Tags") = Green
  <-> exists s, In s (parseSections (lit "### TAGS\nB"))
                /\ @toLowerCase sampleEngine (title s)
                   = @toLowerCase sampleEngine (lit "Tags").
Proof.
  refine (proj1 (proj2 (proj2 (@requiredDot_colors sampleEngine
                                 [lit "Title"; lit "Tags"] (lit "Tags")))
                   (lit "### TAGS\nB") _ _)).
  - discriminate.
  - right. now left.
Defined.

Lemma titleWarn_parsed_witness :
  @titleWarn sampleEngine {| title := lit "TITLE"; content := lit "Short" |}
  = @isTitle sampleEngine {| title := lit "TITLE"; content := lit "Short" |}
    && (70 <? length (content {| title := lit "TITLE";
                                 content := lit "Short" |})).
Proof.
  refine (proj1 (@titleWarn_parsed sampleEngine (lit "### TITLE\n Short ")
                   {| title := lit "TITLE"; content := lit "Short" |}) _).
  now left.
Defined.

(** ** The prompt and the submission *)

(** X14: the prompt carries the script as it is, between the two marker
    lines and after a text that depends on the required sections only;
    so two scripts with the same prompt are the same script. *)
Theorem buildPrompt_script (REQUIRED_SECTIONS : list jsstring) :
  exists before,
    (forall userScript,
       buildPrompt REQUIRED_SECTIONS userScript
       = before ++ lit "<<<\n" ++ userScript ++ lit "\n>>>")
    /\ (forall a b,
          buildPrompt REQUIRED_SECTIONS a = buildPrompt REQUIRED_SECTIONS b ->
          a = b).
Proof.
  exists (promptHeader
          ++ lit "\nOUTPUT FORMAT (exactly these Markdown sections, in this order; each starts with \'### \'):\n"
          ++ formatHeadings REQUIRED_SECTIONS
          ++ lit "\n\nINPUT SCRIPT:\n").
  assert (H : forall userScript,
             buildPrompt REQUIRED_SECTIONS userScript
             = (promptHeader
                ++ lit "\nOUTPUT FORMAT (exactly these Markdown sections, in this order; each starts with \'### \'):\n"
                ++ formatHeadings REQUIRED_SECTIONS
                ++ lit "\n\nINPUT SCRIPT:\n")
               ++ lit "<<<\n" ++ userScript ++ lit "\n>>>").
  { intros userScript. unfold buildPrompt. cbv zeta.
    change (lit "\n\nINPUT SCRIPT:\n<<<\n")
      with (lit "\n\nINPUT SCRIPT:\n" ++ lit "<<<\n").
    now rewrite <- !app_assoc. }
  split; [exact H|].
  intros a b Hab. rewrite !H in Hab.
  apply app_inv_head in Hab. apply app_inv_head in Hab.
  now apply app_inv_tail in Hab.
Qed.

(** X15: a submission.  It is refused exactly when the script is blank
    or a request is awaited.  Otherwise the prompt of the script is
    sent; while it is awaited the form is loading, shows neither result
    nor error and refuses a second submission; when the request settles
    the form stops loading, keeps the script and has either the result,
    when a text came back that does not begin with Error:, or an error
    text that is not empty, never both. *)
Theorem handleSubmit_cycle (REQUIRED_SECTIONS : list jsstring) (st : appState) :
  (handleSubmit_start REQUIRED_SECTIONS st = None <->
   trim (rawScript st) = [] \/ isLoading st = true)
  /\ (forall prompt st1 r,
        handleSubmit_start REQUIRED_SECTIONS st = Some (prompt, st1) ->
        let st2 := handleSubmit_settle st1 r in
        prompt = buildPrompt REQUIRED_SECTIONS (rawScript st)
        /\ isLoading st1 = true /\ result st1 = None /\ error st1 = None
        /\ handleSubmit_start REQUIRED_SECTIONS st1 = None
        /\ isLoading st2 = false
        /\ rawScript st2 = rawScript st
        /\ match r with
           | Resolved out =>
               if startsWith out (lit "Error:")
               then result st2 = None /\ error st2 = Some out
               else result st2 = Some out /\ error st2 = None
           | Rejected reason =>
               result st2 = None
               /\ exists text, error st2 = Some text /\ text <> []
           end).
Proof.
  unfold handleSubmit_start. split.
  - destruct (trim (rawScript st)) as [|c r] eqn:Et; cbn [truthy negb orb].
    + split; [now left|reflexivity].
    + destruct (isLoading st); split; try discriminate; auto.
      intros [H|H]; discriminate.
  - intros prompt st1 r H.
    destruct (negb (truthy (trim (rawScript st))) || isLoading st);
      [discriminate|].
    injection H as <- <-. cbn [isLoading result error rawScript].
    rewrite orb_true_r.
    repeat (split; [reflexivity|]).
    destruct r as [out|reason]; cbn [handleSubmit_settle].
    + destruct (startsWith out (lit "Error:")) eqn:Hs;
        cbn [isLoading result error rawScript];
        repeat (split; [reflexivity|]); [|reflexivity].
      unfold errorText.
      apply startsWith_prefix in Hs as [rest ->]. reflexivity.
    + cbn [isLoading result error rawScript].
      repeat (split; [reflexivity|]).
      eexists. split; [reflexivity|]. unfold errorText.
      destruct reason as [[|c m]|]; discriminate.
Qed.

Lemma handleSubmit_cycle_witness :
  let st := {| rawScript := lit "my script"; result := Some (lit "old");
               isLoading := false; error := None |} in
  let st1 := {| rawScript := lit "my script"; result := None;
                isLoading := true; error := None |} in
  handleSubmit_start [lit "Title"] st1 = None
  /\ result (handleSubmit_settle st1 (Resolved (lit "Error: quota"))) = None.
Proof.
  intros st st1.
  destruct (proj2 (handleSubmit_cycle [lit "Title"] st)
              (buildPrompt [lit "Title"] (lit "my script")) st1
              (Resolved (lit "Error: quota")) eq_refl)
    as (_ & _ & _ & _ & Hagain & _ & _ & Hres & _).
  split; [exact Hagain|exact Hres].
Defined.

(** ** The headings the prompt asks for *)

Lemma split_line (a b : jsstring) :
  ~ In 10%N a -> re_headingBreak (10%N :: b) = true ->
  split_headingBreak (a ++ 10%N :: b) = a :: split_headingBreak b.
Proof.
  intros Ha Hb. induction a as [|c a IH]; cbn [app split_headingBreak].
  - now rewrite Hb.
  - rewrite headingBreak_linefeed by (intros ->; apply Ha; now left).
    rewrite IH by (intros H; apply Ha; now right). reflexivity.
Qed.

Lemma split_formatHeadings (names : list jsstring) :
  names <> [] ->
  (forall n, In n names -> ~ In 10%N n) ->
  split_headingBreak (formatHeadings names)
  = map (fun n => lit "### " ++ n) names.
Proof.
  unfold formatHeadings.
  induction names as [|n names IH]; [congruence|]. intros _ Hlf.
  destruct names as [|n' names].
  - cbn [map join]. apply split_no_linefeed.
    intros H. apply in_app_or in H as [H|H].
    + cbn in H. intuition discriminate.
    + exact (Hlf n (or_introl eq_refl) H).
  - cbn [map]. rewrite join_cons by discriminate.
    rewrite split_line.
    + f_equal. apply IH; [discriminate|].
      intros m Hm. apply Hlf. now right.
    + intros H. apply in_app_or in H as [H|H].
      * cbn in H. intuition discriminate.
      * exact (Hlf n (or_introl eq_refl) H).
    + destruct names; reflexivity.
Qed.

Lemma join_units (chunks : list jsstring) (x : N) :
  In x (join chunks) -> x = 10%N \/ exists chunk, In chunk chunks /\ In x chunk.
Proof.
  induction chunks as [|c chunks IH]; [intros []|].
  destruct chunks as [|c' chunks].
  - intros H. right. exists c. split; [now left|exact H].
  - rewrite join_cons by discriminate. intros H.
    apply in_app_or in H as [H|[H|H]].
    + right. exists c. split; [now left|exact H].
    + now left.
    + destruct (IH H) as [?|(chunk & Hc & Hx)]; [now left|].
      right. exists chunk. split; [now right|exact Hx].
Qed.

Lemma forEach_headings (names : list jsstring) (idx : nat) :
  (forall n, In n names -> n <> [] /\ trim n = n /\ ~ In 10%N n) ->
  forEach pushChunk (map (fun n => lit "### " ++ n) names) idx []
  = map (fun n => {| title := n; content := [] |}) names.
Proof.
  revert idx. induction names as [|n names IH]; intros idx H; [reflexivity|].
  cbn [map]. rewrite forEach_pushChunk_cons.
  rewrite IH by (intros m Hm; apply H; now right).
  destruct (H n (or_introl eq_refl)) as (Hne & Htrim & Hlf).
  destruct (chunk_heading_alone n Hlf) as [Et Ec].
  unfold pushChunk.
  change (startsWith (lit "### " ++ n) (lit "### ")) with true. cbv iota.
  rewrite Et, Ec, Htrim. apply truthy_nonempty in Hne. now rewrite Hne.
Qed.

Section Headings.
Context {E : Engine}.

(** X16: the prompt and the checklist agree.  When the required names
    are not empty, are trimmed and hold no line break, the heading lines
    that the prompt spells out, taken as a response, parse to one
    section with an empty content for each required name, in order, and
    every item of the checklist is marked present. *)
Theorem formatHeadings_checked (REQUIRED_SECTIONS : list jsstring) :
  REQUIRED_SECTIONS <> [] ->
  (forall n, In n REQUIRED_SECTIONS ->
             n <> [] /\ trim n = n /\ ~ In 10%N n /\ ~ In 13%N n) ->
  parseSections (formatHeadings REQUIRED_SECTIONS)
  = map (fun n => {| title := n; content := [] |}) REQUIRED_SECTIONS
  /\ forall item,
       In item (checklist (Some (formatHeadings REQUIRED_SECTIONS))
                  REQUIRED_SECTIONS) ->
       ok item = true.
Proof.
  intros Hne Hnames.
  assert (Hhead : exists r, formatHeadings REQUIRED_SECTIONS = 35%N :: r).
  { unfold formatHeadings.
    destruct REQUIRED_SECTIONS as [|n [|n' R]]; [congruence| |];
      eexists; reflexivity. }
  assert (Hparse : parseSections (formatHeadings REQUIRED_SECTIONS)
                   = map (fun n => {| title := n; content := [] |})
                       REQUIRED_SECTIONS).
  { rewrite parseSections_nonblank.
    - rewrite replace_crlf_fixed.
      + rewrite split_formatHeadings; [|exact Hne|intros n Hn; now apply Hnames].
        apply forEach_headings. intros n Hn.
        destruct (Hnames n Hn) as (? & ? & ? & _). auto.
      + intros H. apply join_units in H as [H|(chunk & Hc & Hx)];
          [discriminate|].
        apply in_map_iff in Hc as (n & <- & Hn).
        apply in_app_or in Hx as [Hx|Hx].
        * cbn in Hx. intuition discriminate.
        * now apply (Hnames n Hn).
    - destruct Hhead as [r ->]. intros H. apply trim_blank in H.
      discriminate. }
  split; [exact Hparse|].
  intros item Hitem. unfold checklist in Hitem.
  destruct Hhead as [r Hr]. rewrite Hr in Hitem. cbn [truthy negb] in Hitem.
  rewrite <- Hr, Hparse in Hitem. unfold checkRequiredSections in Hitem.
  apply in_map_iff in Hitem as (n & <- & Hn). cbn [ok].
  apply includes_In, in_map_iff.
  exists {| title := n; content := [] |}. cbn [title]. split.
  - now rewrite (proj1 (proj2 (Hnames n Hn))).
  - apply in_map_iff. now exists n.
Qed.

End Headings.

Lemma formatHeadings_checked_witness :
  parseSections (formatHeadings [lit "Title"; lit "Metadata JSON"])
  = map (fun n => {| title := n; content := [] |})
      [lit "Title"; lit "Metadata JSON"].
Proof.
  refine (proj1 (@formatHeadings_checked sampleEngine
                   [lit "Title"; lit "Metadata JSON"] _ _)).
  - discriminate.
  - intros n [<-|[<-|[]]]; repeat split; try discriminate;
      cbn; intuition discriminate.
Defined.

(** ** The stored state *)

Lemma getItem_setItem (store : storage) (k v : jsstring) :
  getItem (setItem store k v) k = Some v.
Proof.
  cbn [setItem getItem].
  assert (H : str_eqb k k = true) by now apply str_eqb_eq.
  now rewrite H.
Qed.

Lemma getItem_removeItem (store : storage) (k : jsstring) :
  getItem (removeItem store k) k = None.
Proof.
  induction store as [|[k' v] store IH]; [reflexivity|].
  cbn [removeItem]. destruct (str_eqb k' k) eqn:E'; [exact IH|].
  cbn [getItem]. now rewrite E'.
Qed.

Lemma getItem_removeItem_other (store : storage) (k k' : jsstring) :
  str_eqb k k' = false ->
  getItem (removeItem store k) k' = getItem store k'.
Proof.
  intros Hk. induction store as [|[k0 v] store IH]; [reflexivity|].
  cbn [removeItem getItem]. destruct (str_eqb k0 k) eqn:E0.
  - apply str_eqb_eq in E0. subst k0. now rewrite Hk.
  - cbn [getItem]. now rewrite IH.
Qed.

Lemma getItem_setItem_other (store : storage) (k k' v : jsstring) :
  str_eqb k k' = false ->
  getItem (setItem store k v) k' = getItem store k'.
Proof.
  intros Hk. cbn [setItem getItem]. rewrite Hk.
  now apply getItem_removeItem_other.
Qed.

(** X17: what the two effects store, the mount effect restores: after
    the effects ran on a state, a fresh mount has the script of that
    state, and its result when that is a text that is not empty; when
    the state has no result, nothing is written and the mount restores
    the result that was stored before. *)
Theorem stored_state_restored (store : storage) (st : appState) :
  let store' := resultEffect (scriptEffect store st) st in
  rawScript (mountEffect store' initialState) = rawScript st
  /\ (forall r, result st = Some r -> r <> [] ->
                result (mountEffect store' initialState) = Some r)
  /\ (result st = None ->
      result (mountEffect store' initialState)
      = result (mountEffect store initialState)).
Proof.
  intros store'. subst store'. unfold resultEffect, scriptEffect.
  split; [|split].
  - assert (Hs : forall s0,
               getItem s0 (lit "yco_script_en") = Some (rawScript st) ->
               rawScript (mountEffect s0 initialState) = rawScript st).
    { intros s0 H. unfold mountEffect. cbn [rawScript]. rewrite H.
      destruct (rawScript st); reflexivity. }
    destruct (result st) as [[|c r]|]; apply Hs; cbn [truthy];
      try apply getItem_setItem.
    rewrite getItem_setItem_other by reflexivity. apply getItem_setItem.
  - intros r Hr Hne. rewrite Hr. apply truthy_nonempty in Hne. rewrite Hne.
    unfold mountEffect. cbn [result]. rewrite getItem_setItem. now rewrite Hne.
  - intros Hr. rewrite Hr. unfold mountEffect. cbn [result].
    now rewrite getItem_setItem_other by reflexivity.
Qed.

Lemma stored_state_restored_witness :
  result (mountEffect
            (resultEffect
               (scriptEffect [(lit "yco_result_en", lit "old")]
                  {| rawScript := lit "s"; result := Some (lit "new");
                     isLoading := false; error := None |})
               {| rawScript := lit "s"; result := Some (lit "new");
                  isLoading := false; error := None |})
            initialState)
  = Some (lit "new").
Proof.
  refine (proj1 (proj2 (stored_state_restored
                          [(lit "yco_result_en", lit "old")]
                          {| rawScript := lit "s"; result := Some (lit "new");
                             isLoading := false; error := None |}))
            (lit "new") eq_refl _).
  discriminate.
Defined.

(** X18: after Clear the form is empty and a fresh mount restores
    nothing, whatever was stored, also once the effects have run on the
    cleared state. *)
Theorem clearAll_forgets (store : storage) (st : appState) :
  let store' := fst (clearAll store st) in
  let st' := snd (clearAll store st) in
  rawScript st' = [] /\ result st' = None /\ error st' = None
  /\ mountEffect store' initialState = initialState
  /\ mountEffect (resultEffect (scriptEffect store' st') st') initialState
     = initialState.
Proof.
  cbn [clearAll fst snd rawScript result error].
  repeat (split; [reflexivity|]). split.
  - unfold mountEffect.
    rewrite getItem_removeItem_other by reflexivity.
    now rewrite !getItem_removeItem.
  - unfold resultEffect, scriptEffect. cbn [result rawScript].
    unfold mountEffect. rewrite getItem_setItem.
    rewrite getItem_setItem_other by reflexivity.
    now rewrite getItem_removeItem.
Qed.

Lemma buildPrompt_script_witness : lit "my script" = lit "my script".
Proof.
  destruct (buildPrompt_script [lit "Title"; lit "Tags"]) as (before & _ & Hinj).
  exact (Hinj (lit "my script") (lit "my script") eq_refl).
Defined.
